(** * K-means visualiser ([main.c]): the clustering core, embedded and verified

    The C program keeps two dynamic arrays (samples and centroids), assigns
    every sample to its nearest centroid, moves every centroid to the mean of
    its samples and repeats until no centroid moves by more than a fixed
    epsilon.  All coordinates are C [float]s.

    Numbers.  A C [float] is an IEEE 754 binary32 value.  It is modelled by
    the standard library's [spec_float] with precision 24 and maximal
    exponent 128; every arithmetic operation rounds to nearest, ties to even,
    once per operation (FLT_EVAL_METHOD 0, no contraction into fused
    multiply-add).  A C [int] is a [Z]; where the program could leave the
    range of a 32-bit [int] the model says so.

    Memory.  A dynamic array is the list of its [count] live cells together
    with its [capacity]; [count] is the length of that list.  Undefined
    behaviour of the C program (an out-of-bounds access, a signed overflow,
    a write through a null pointer) is an explicit outcome, as are a failed
    [assert] and a loop that has not finished within the given fuel. *)

From Stdlib Require Import ZArith List Lia Bool String Ascii.
From Stdlib Require Import Floats.SpecFloat.
From stdpp Require Import base list.

Open Scope Z_scope.

(** ** Binary32 arithmetic *)

Module F32.

Definition prec : Z := 24.
Definition emax : Z := 128.

Definition float : Type := spec_float.

Definition add : float -> float -> float := SFadd prec emax.
Definition sub : float -> float -> float := SFsub prec emax.
Definition mul : float -> float -> float := SFmul prec emax.
Definition div : float -> float -> float := SFdiv prec emax.
Definition sqrtf : float -> float := SFsqrt prec emax.
Definition opp : float -> float := SFopp.

(** [a < b] of C: false as soon as one side is not a number. *)
Definition ltb : float -> float -> bool := SFltb.
Definition eqb : float -> float -> bool := SFeqb.
Definition leb : float -> float -> bool := SFleb.

(** Conversion [(float) n] of an integer. *)
Definition of_int (n : Z) : float := binary_normalize prec emax n 0 false.

(** Conversion [(float) d] of a [double], itself a [spec_float] of
    precision 53. *)
Definition of_double (d : spec_float) : float :=
  match d with
  | S754_finite s m e => binary_round prec emax s m e
  | _ => d
  end.

Definition zero : float := S754_zero false.
Definition one : float := of_int 1.
Definition nan : float := S754_nan.

(** [__FLT_MAX__], the largest finite binary32 value, (2^24 - 1) * 2^104. *)
Definition FLT_MAX : float := S754_finite false 16777215 104.

Definition is_nan (f : float) : bool :=
  match f with S754_nan => true | _ => false end.

(** The values a C [float] can hold. *)
Definition representable (f : float) : bool := valid_binary prec emax f.

End F32.

Declare Scope f32_scope.
Delimit Scope f32_scope with f32.
Notation "a + b" := (F32.add a b) : f32_scope.
Notation "a - b" := (F32.sub a b) : f32_scope.
Notation "a * b" := (F32.mul a b) : f32_scope.
Notation "a / b" := (F32.div a b) : f32_scope.
Notation "a <? b" := (F32.ltb a b) : f32_scope.

Abbreviation float := F32.float.

(** ** Outcomes of a C function *)

Inductive outcome (A : Type) : Type :=
| Done (a : A)      (* the function returned *)
| Aborted           (* an [assert] failed: the process is terminated *)
| Undefined         (* the C program has undefined behaviour *)
| OutOfFuel.        (* the loop needs more iterations than were allowed *)

Arguments Done {A} a.
Arguments Aborted {A}.
Arguments Undefined {A}.
Arguments OutOfFuel {A}.

(** Sequencing stops at the first outcome that is not [Done]; written
    [x ← m; k] below. *)
#[global] Instance outcome_bind : MBind outcome := fun A B k m =>
  match m with
  | Done a => k a
  | Aborted => Aborted
  | Undefined => Undefined
  | OutOfFuel => OutOfFuel
  end.

(** ** Data model *)

Definition INT_MAX : Z := 2147483647.
Definition INITIAL_CAPACITY : Z := 10.

(** raylib's [Vector2]. *)
Module Vector2.
Record t : Type := mk { x : float; y : float }.
End Vector2.

Module Mean.
Record t : Type := mk { mean_x : float; mean_y : float; total : Z }.
End Mean.

Module Sample.
Record t : Type := mk { x : float; y : float; cluster : Z }.
End Sample.

(** The sentinel written by [generate_samples]: centroid not known yet. *)
Definition UNASSIGNED : Z := -1.

(** The struct [{ T *items; int count; int capacity; }].  [items] lists the
    cells [0 .. count-1]; [count] is not stored. *)
Record da (T : Type) : Type := mkda { items : list T; capacity : Z }.

Arguments mkda {T} items capacity.
Arguments items {T} d.
Arguments capacity {T} d.

Definition count {T : Type} (a : da T) : Z := Z.of_nat (length (items a)).

Definition Samples : Type := da Sample.t.
Definition Centroids : Type := da Vector2.t.

(** ** [da_append]

    [realloc_ok n] tells whether [realloc] to [n] cells succeeds.  Doubling a
    capacity above [INT_MAX / 2] overflows a signed [int]; a failed [realloc]
    trips the [assert]. *)

Definition da_append {T : Type} (realloc_ok : Z -> bool)
    (array : da T) (item : T) : outcome (da T) :=
  if capacity array <=? count array then
    if negb (capacity array =? 0) && (INT_MAX <? capacity array * 2) then Undefined
    else
      let capacity' :=
        if capacity array =? 0 then INITIAL_CAPACITY else capacity array * 2 in
      if negb (realloc_ok capacity') then Aborted
      else if capacity' <=? count array then Undefined
      else Done (mkda (items array ++ [item]) capacity')
  else Done (mkda (items array ++ [item]) (capacity array)).

(** ** [get_random_float] and [generate_samples] *)

Section Generator.

(** [RAND_MAX] of the C library, the successive results of [rand()], and the
    allocator.  The position in the [rand] sequence is threaded through. *)
Variable RAND_MAX : Z.
Variable rand : nat -> Z.
Variable realloc_ok : Z -> bool.

Definition get_random_float (seed : nat) (min max : float) : float :=
  (F32.of_int (rand seed) / (F32.of_int RAND_MAX / (max - min)) + min)%f32.

(** [radius] is a [double]; [-radius] and [radius] are converted to [float]
    when passed to [get_random_float].  [num_samples] is the [size_t] trip
    count of the loop. *)
Fixpoint generate_samples (s : Samples) (center : Vector2.t)
    (num_samples : nat) (radius : spec_float) (seed : nat)
    : outcome (Samples * nat) :=
  match num_samples with
  | O => Done (s, seed)
  | S num_samples' =>
      let lo := F32.of_double (SFopp radius) in
      let hi := F32.of_double radius in
      let next_sample :=
        Sample.mk (Vector2.x center + get_random_float seed lo hi)%f32
                  (Vector2.y center + get_random_float (S seed) lo hi)%f32
                  UNASSIGNED in
      s' ← da_append realloc_ok s next_sample;
      generate_samples s' center num_samples' radius (S (S seed))
  end.

End Generator.

(** ** [assign_step] *)

(** [curr_distance] of a sample to a centroid. *)
Definition distance (sample : Sample.t) (centroid : Vector2.t) : float :=
  F32.sqrtf
    ((Sample.x sample - Vector2.x centroid) * (Sample.x sample - Vector2.x centroid)
     + (Sample.y sample - Vector2.y centroid) * (Sample.y sample - Vector2.y centroid))%f32.

(** The inner loop, from centroid index [k] on: the running [best_distance]
    and the sample's [cluster] field. *)
Fixpoint assign_scan (sample : Sample.t) (cs : list Vector2.t) (k : Z)
    (best_distance : float) (cluster : Z) : float * Z :=
  match cs with
  | [] => (best_distance, cluster)
  | centroid :: cs' =>
      let curr_distance := distance sample centroid in
      if (curr_distance <? best_distance)%f32
      then assign_scan sample cs' (k + 1) curr_distance k
      else assign_scan sample cs' (k + 1) best_distance cluster
  end.

(** The body of the outer loop. *)
Definition assign_sample (c : Centroids) (sample : Sample.t) : Sample.t :=
  Sample.mk (Sample.x sample) (Sample.y sample)
    (snd (assign_scan sample (items c) 0 F32.FLT_MAX (Sample.cluster sample))).

Definition assign_step (c : Centroids) (s : Samples) : Samples :=
  mkda (map (assign_sample c) (items s)) (capacity s).

(** ** [update_step] *)

Definition newline : string := String (ascii_of_nat 10) EmptyString.

Definition update_step_error : string :=
  ("ERORR: Could not allocate memory for mean_array on update_step method"
     ++ newline)%string.

Definition mean_zero : Mean.t := Mean.mk F32.zero F32.zero 0.

(** Second loop: every sample is added to the cell [mean_array[sample.cluster]].
    The index is not checked by the C code: outside the array the access is
    undefined behaviour.  [total] cannot overflow: there are at most [INT_MAX]
    samples, [count] being an [int]. *)
Fixpoint accumulate (ss : list Sample.t) (mean_array : list Mean.t)
    : outcome (list Mean.t) :=
  match ss with
  | [] => Done mean_array
  | sample :: ss' =>
      if Sample.cluster sample <? 0 then Undefined
      else
        match mean_array !! Z.to_nat (Sample.cluster sample) with
        | None => Undefined
        | Some m =>
            accumulate ss'
              (<[Z.to_nat (Sample.cluster sample) :=
                   Mean.mk (Mean.mean_x m + Sample.x sample)%f32
                           (Mean.mean_y m + Sample.y sample)%f32
                           (Mean.total m + 1)]> mean_array)
        end
  end.

(** Third loop: cell [k] is divided by its [total] (converted to [float]) and
    stored into centroid [k]. *)
Definition mean_position (m : Mean.t) : Vector2.t :=
  Vector2.mk (Mean.mean_x m / F32.of_int (Mean.total m))%f32
             (Mean.mean_y m / F32.of_int (Mean.total m))%f32.

(** [malloc_ok] tells whether the [malloc] of [mean_array] succeeds.  The
    result carries the lines written to [stderr]. *)
Definition update_step (malloc_ok : bool) (c : Centroids) (s : Samples)
    : outcome (Centroids * list string) :=
  if negb malloc_ok then Done (c, [update_step_error])
  else
    let mean_array := replicate (length (items c)) mean_zero in
    mean_array' ← accumulate (items s) mean_array;
    Done (mkda (map mean_position mean_array') (capacity c), []).

(** ** [converged] *)

(** [0.0001f]: the binary32 value nearest to 1/10000. *)
Definition EPSILON : float := S754_finite false 13743895 (-37).

Definition sq_displacement (p c : Vector2.t) : float :=
  let dx := (Vector2.x p - Vector2.x c)%f32 in
  let dy := (Vector2.y p - Vector2.y c)%f32 in
  (dx * dx + dy * dy)%f32.

(** The test [dx * dx + dy * dy > EPSILON]. *)
Definition exceeds_epsilon (d : float) : bool := (EPSILON <? d)%f32.

(** The loop over the indices, both arrays having the same [count]. *)
Fixpoint converged_scan (previus centroids : list Vector2.t) : bool :=
  match previus, centroids with
  | p :: previus', c :: centroids' =>
      if exceeds_epsilon (sq_displacement p c) then false
      else converged_scan previus' centroids'
  | _, _ => true
  end.

Definition converged (previus centroids : Centroids) : bool :=
  if negb (count previus =? count centroids) then false
  else converged_scan (items previus) (items centroids).

(** ** [run_kmeans] *)

Record session : Type := mksession {
  centroids : Centroids;
  samples : Samples;
  time_between_updates : float;
  stderr : list string
}.

(** What the loop of [run_kmeans] does, in order (ghost state). *)
Inductive event : Type :=
| Test (result : bool)   (* [converged(&previous, centroids)] *)
| Snapshot               (* [previous] := copy of the centroids *)
| Assign                 (* [assign_step] *)
| Update.                (* [update_step] *)

(** The while loop.  [it] counts the iterations so far, [mallocs (S it)] is
    the fate of the [malloc] inside the [update_step] of this iteration. *)
Fixpoint kmeans_loop (fuel : nat) (mallocs : nat -> bool) (it : nat)
    (previous : Centroids) (w : session) (trace : list event)
    : outcome (session * list event) :=
  match fuel with
  | O => OutOfFuel
  | S fuel' =>
      if converged previous (centroids w) then
        Done (w, trace ++ [Test true])
      else
        let previous' := mkda (items (centroids w)) (capacity previous) in
        let samples' := assign_step (centroids w) (samples w) in
        '(centroids', lines) ← update_step (mallocs (S it)) (centroids w) samples';
        kmeans_loop fuel' mallocs (S it) previous'
          (mksession centroids' samples' (time_between_updates w)
                     (stderr w ++ lines))
          (trace ++ [Test false; Snapshot; Assign; Update])
  end.

(** The local [Centroids previous] is not initialised before the first test
    of the loop: its [count] and the cells of the fresh [malloc] block hold
    whatever they hold.  [previous0] is that content, the list of the cells
    [0 .. previous.count-1].  [mallocs 0] is the fate of the [malloc] of
    [previous.items]; with a null [previous.items] the loop can only leave
    at once, on two empty arrays, any other path going through the null
    pointer. *)
Definition run_kmeans (fuel : nat) (mallocs : nat -> bool)
    (previous0 : list Vector2.t) (w : session)
    : outcome (session * list event) :=
  if (time_between_updates w <? F32.one)%f32 then Done (w, [])
  else
    '(w', trace) ←
      (if mallocs O then
         kmeans_loop fuel mallocs O (mkda previous0 (capacity (centroids w))) w []
       else match previous0, items (centroids w) with
            | [], [] => Done (w, [Test true])
            | _, _ => Undefined
            end);
    Done (mksession (centroids w') (samples w') F32.zero (stderr w'), trace).

(** ** Vocabulary of the specification *)

(** A cluster field is the sentinel or an index into [k] centroids. *)
Definition cluster_ok (k : Z) (sample : Sample.t) : Prop :=
  Sample.cluster sample = UNASSIGNED \/ 0 <= Sample.cluster sample < k.

(** A cluster field is an index into [k] centroids. *)
Definition cluster_valid (k : Z) (sample : Sample.t) : Prop :=
  0 <= Sample.cluster sample < k.

(** Some centroid lies at a distance the scan of [assign_step] can beat its
    initial [best_distance] with. *)
Definition in_reach (c : Centroids) (sample : Sample.t) : Prop :=
  exists j cj, items c !! j = Some cj /\
    (distance sample cj <? F32.FLT_MAX)%f32 = true.

(** [sample'] is [sample] with its cluster set to the index [k] of the
    nearest centroid: the distance of centroid [k] is a number below
    FLT_MAX, no centroid is strictly closer, every centroid whose distance
    is a number is at least as far, and [k] is the lowest index among the
    centroids at that same distance. *)
Definition assigned_lowest_nearest (c : Centroids) (sample sample' : Sample.t)
    : Prop :=
  Sample.x sample' = Sample.x sample /\ Sample.y sample' = Sample.y sample /\
  exists k ck,
    Sample.cluster sample' = Z.of_nat k /\ items c !! k = Some ck /\
    (distance sample ck <? F32.FLT_MAX)%f32 = true /\
    forall j cj, items c !! j = Some cj ->
      (distance sample cj <? distance sample ck)%f32 = false /\
      (F32.is_nan (distance sample cj) = false ->
       F32.leb (distance sample ck) (distance sample cj) = true) /\
      (F32.eqb (distance sample cj) (distance sample ck) = true -> (k <= j)%nat).

(** [k] is the index of the minimum-distance centroid, the lowest one among
    the centroids at the minimum distance: centroid [k] is at most as far
    as every centroid. *)
Definition nearest_lowest_index (c : Centroids) (sample : Sample.t) (k : nat)
    : Prop :=
  exists ck,
    items c !! k = Some ck /\
    forall j cj, items c !! j = Some cj ->
      F32.leb (distance sample ck) (distance sample cj) = true /\
      (F32.eqb (distance sample cj) (distance sample ck) = true -> (k <= j)%nat).

(** The samples of cluster [k], in the order of the array. *)
Definition members (k : Z) (ss : list Sample.t) : list Sample.t :=
  List.filter (fun sample => Sample.cluster sample =? k) ss.

(** Sums of coordinates, accumulated from left to right from [acc] on. *)
Definition sum_x (acc : float) (ss : list Sample.t) : float :=
  fold_left (fun a sample => (a + Sample.x sample)%f32) ss acc.

Definition sum_y (acc : float) (ss : list Sample.t) : float :=
  fold_left (fun a sample => (a + Sample.y sample)%f32) ss acc.

(** The mean of the samples of cluster [k]: sum of x divided by the number of
    members, sum of y divided by the number of members. *)
Definition cluster_mean (k : Z) (ss : list Sample.t) : Vector2.t :=
  Vector2.mk
    (sum_x F32.zero (members k ss) / F32.of_int (Z.of_nat (length (members k ss))))%f32
    (sum_y F32.zero (members k ss) / F32.of_int (Z.of_nat (length (members k ss))))%f32.

(** A centroid whose two coordinates are not a number. *)
Definition nan_position : Vector2.t := Vector2.mk F32.nan F32.nan.

(** ** Concrete data *)

Definition vec (a b : Z) : Vector2.t := Vector2.mk (F32.of_int a) (F32.of_int b).

Definition smp (a b : Z) (cl : Z) : Sample.t :=
  Sample.mk (F32.of_int a) (F32.of_int b) cl.

(** The four corners of a square, all in cluster 0. *)
Definition square : Samples :=
  mkda [smp 0 0 0; smp 2 0 0; smp 0 2 0; smp 2 2 0] 10.

(** 2^100, a finite [float] whose square is not. *)
Definition two_100 : float := S754_finite false 8388608 77.

Definition far_centroid : Centroids := mkda [Vector2.mk two_100 F32.zero] 10.

Definition origin_sample : Sample.t := smp 0 0 UNASSIGNED.

(** A dynamic array built by [da_append] from the empty one never holds
    more cells than its capacity. *)
Definition well_formed {T : Type} (a : da T) : Prop := count a <= capacity a.

(** Two centroids that lost all their samples, and two fresh samples. *)
Definition lost_centroids : Centroids := mkda [nan_position; nan_position] 10.

Definition fresh_samples : Samples :=
  mkda [smp 0 0 UNASSIGNED; smp 1 1 UNASSIGNED] 10.

(** One half, and a centroid set whose second centroid is far from the fresh
    samples: it attracts none of them. *)
Definition half : float := (F32.of_int 1 / F32.of_int 2)%f32.

Definition lonely_centroids : Centroids :=
  mkda [Vector2.mk half half; vec 100 100] 10.

Definition lonely_after : Centroids :=
  mkda [Vector2.mk half half; nan_position] 10.

(** The events of one turn of the loop of [run_kmeans], and those of a run
    of [n] turns followed by the test that ends it. *)
Definition cycle_events : list event := [Test false; Snapshot; Assign; Update].

Definition run_events (n : nat) : list event :=
  concat (replicate n cycle_events) ++ [Test true].

(** A session that is due for a run, with one centroid and unassigned
    samples. *)
Definition due_session : session :=
  mksession (mkda [vec 1 1] 10) fresh_samples F32.one [].

(** ** Binary64 arithmetic, for the [double] expressions of [main] *)

Module F64.

Definition prec : Z := 53.
Definition emax : Z := 1024.

Definition mul : spec_float -> spec_float -> spec_float := SFmul prec emax.
Definition sub : spec_float -> spec_float -> spec_float := SFsub prec emax.

(** Conversion [(double) f] of a [float]: the same number. *)
Definition of_float (f : float) : spec_float :=
  match f with
  | S754_finite s m e => binary_round prec emax s m e
  | _ => f
  end.

(** The literals [50.0] and [0.7]. *)
Definition fifty : spec_float := S754_finite false 7036874417766400 (-47).
Definition seven_tenths : spec_float := S754_finite false 6305039478318694 (-53).

End F64.

(** ** [create_centroids] *)

Definition WINDOW_WIDTH : Z := 800.
Definition WINDOW_HEIGHT : Z := 600.

Section Initializer.

Variable RAND_MAX : Z.
Variable rand : nat -> Z.
Variable realloc_ok : Z -> bool.

(** The loop, [n] turns from index [i] on. *)
Fixpoint create_centroids_loop (x_separation y_separation : float)
    (c : Centroids) (n : nat) (i : Z) (seed : nat) : outcome (Centroids * nat) :=
  match n with
  | O => Done (c, seed)
  | S n' =>
      let position :=
        Vector2.mk
          (get_random_float RAND_MAX rand seed
             (x_separation * F32.of_int i) (x_separation * F32.of_int (i + 1)))%f32
          (get_random_float RAND_MAX rand (S seed)
             (y_separation * F32.of_int i) (y_separation * F32.of_int (i + 1)))%f32 in
      c' ← da_append realloc_ok c position;
      create_centroids_loop x_separation y_separation c' n' (i + 1) (S (S seed))
  end.

(** [WINDOW_WIDTH / k] and [WINDOW_HEIGHT / k] are divisions of [int]s,
    truncated, and undefined for [k = 0]; the quotients are then converted
    to [float].  The unused [x_pad] and [y_pad] are left out. *)
Definition create_centroids (c : Centroids) (k : Z) (seed : nat)
    : outcome (Centroids * nat) :=
  if k =? 0 then Undefined
  else
    let x_separation := F32.of_int (Z.quot WINDOW_WIDTH k) in
    let y_separation := F32.of_int (Z.quot WINDOW_HEIGHT k) in
    create_centroids_loop x_separation y_separation c (Z.to_nat k) 0 seed.

(** ** The set-up of [main]

    The four calls of [generate_samples] on the empty array, with the centre
    moved in between, and the creation of three centroids. *)
Definition setup : outcome (Samples * Centroids * nat) :=
  let num_samples := 25%nat in
  let center :=
    Vector2.mk (F32.of_int (Z.quot WINDOW_WIDTH 2))
               (F32.of_int (Z.quot WINDOW_HEIGHT 2)) in
  let radius := F64.fifty in
  let samples : Samples := mkda [] 0 in
  '(samples, seed) ←
    generate_samples RAND_MAX rand realloc_ok samples center num_samples radius O;
  let center :=
    Vector2.mk (Vector2.x center)
               (Vector2.y center + Vector2.y center / F32.of_int 2)%f32 in
  '(samples, seed) ←
    generate_samples RAND_MAX rand realloc_ok samples center num_samples radius seed;
  let center :=
    Vector2.mk (Vector2.x center + Vector2.x center / F32.of_int 2)%f32
               (Vector2.y center) in
  '(samples, seed) ←
    generate_samples RAND_MAX rand realloc_ok samples center num_samples radius seed;
  let center :=
    Vector2.mk
      (F32.of_double
         (F64.sub (F64.of_float (Vector2.x center))
                  (F64.mul (F64.of_float (Vector2.x center)) F64.seven_tenths)))
      (Vector2.y center) in
  '(samples, seed) ←
    generate_samples RAND_MAX rand realloc_ok samples center num_samples radius seed;
  let centroids : Centroids := mkda [] 0 in
  '(centroids, seed) ← create_centroids centroids 3 seed;
  Done (samples, centroids, seed).

End Initializer.

(** ** [draw_samples] and [draw_centroids] *)

(** The colours of raylib the program draws with. *)
Inductive Color : Type := RED | GREEN | YELLOW | PINK.

Definition centroids_colors : list Color := [RED; GREEN; YELLOW].

Definition SAMPLE_RADIUS : Z := 5.
Definition CENTROID_RADIUS : Z := 10.

(** Conversion [(int) f] of a [float]: the fraction is dropped; a value
    that is not a number, infinite, or whose integral part does not fit an
    [int] has no conversion (undefined behaviour in C). *)
Definition INT_MIN : Z := -2147483648.

Definition to_int (f : float) : option Z :=
  match f with
  | S754_zero _ => Some 0
  | S754_finite s m e =>
      let magnitude := Z.shiftl (Zpos m) e in
      let n := if s then - magnitude else magnitude in
      if (INT_MIN <=? n) && (n <=? INT_MAX) then Some n else None
  | _ => None
  end.

(** One call of raylib's
    [DrawCircle(int centerX, int centerY, float radius, Color color)], with
    the arguments as the function receives them. *)
Record circle : Type := DrawCircle {
  centerX : Z; centerY : Z; radius : float; color : Color
}.

(** The call [DrawCircle(x, y, r, color)] with [float] coordinates and an
    [int] radius: the coordinates are converted to [int], the radius to
    [float]. *)
Definition draw_circle (x y : float) (r : Z) (color : Color) : outcome circle :=
  match to_int x, to_int y with
  | Some centerX, Some centerY => Done (DrawCircle centerX centerY (F32.of_int r) color)
  | _, _ => Undefined
  end.

(** The palette is read unchecked: an index outside its three cells is
    undefined behaviour. *)
Fixpoint draw_samples_from (ss : list Sample.t) : outcome (list circle) :=
  match ss with
  | [] => Done []
  | sample :: ss' =>
      color ←
        (if Sample.cluster sample =? -1 then Done PINK
         else if Sample.cluster sample <? 0 then Undefined
         else match centroids_colors !! Z.to_nat (Sample.cluster sample) with
              | Some color => Done color
              | None => Undefined
              end);
      circ ← draw_circle (Sample.x sample) (Sample.y sample) SAMPLE_RADIUS color;
      circles ← draw_samples_from ss';
      Done (circ :: circles)
  end.

Definition draw_samples (s : Samples) : outcome (list circle) :=
  draw_samples_from (items s).

Fixpoint draw_centroids_from (cs : list Vector2.t) (k : nat)
    : outcome (list circle) :=
  match cs with
  | [] => Done []
  | centroid :: cs' =>
      match centroids_colors !! k with
      | None => Undefined
      | Some color =>
          circ ← draw_circle (Vector2.x centroid) (Vector2.y centroid)
                   CENTROID_RADIUS color;
          circles ← draw_centroids_from cs' (S k);
          Done (circ :: circles)
      end
  end.

Definition draw_centroids (c : Centroids) : outcome (list circle) :=
  draw_centroids_from (items c) O.

(** ** One frame of the loop of [main]

    [dt] is the frame time given by raylib.  The state is drawn first, as it
    is before the run of this frame. *)
Definition frame (fuel : nat) (mallocs : nat -> bool) (previous0 : list Vector2.t)
    (dt : float) (w : session)
    : outcome (session * list circle * list event) :=
  let w1 :=
    mksession (centroids w) (samples w) (time_between_updates w + dt)%f32
              (stderr w) in
  circles_c ← draw_centroids (centroids w1);
  circles_s ← draw_samples (samples w1);
  '(w2, trace) ← run_kmeans fuel mallocs previous0 w1;
  Done (w2, circles_c ++ circles_s, trace).

(** ** Further vocabulary *)

(** The position of a sample. *)
Definition position (sample : Sample.t) : float * float :=
  (Sample.x sample, Sample.y sample).

(** A squared displacement that is at most EPSILON. *)
Definition within_epsilon (d : float) : bool := F32.leb d EPSILON.

(** The session with its accumulator put back to zero. *)
Definition reset_time (w : session) : session :=
  mksession (centroids w) (samples w) F32.zero (stderr w).

(** What one turn of the loop of [run_kmeans] does to the session:
    [assign_step] on the current centroids, then [update_step]. *)
Definition turn (malloc_ok : bool) (w : session) : outcome session :=
  let samples' := assign_step (centroids w) (samples w) in
  '(centroids', lines) ← update_step malloc_ok (centroids w) samples';
  Done (mksession centroids' samples' (time_between_updates w)
          (stderr w ++ lines)).

(** A convergence run of [n] turns from the session [w], the snapshot
    being [previous], to the session [w']: each turn starts on a test that
    fails, keeps the centroids it starts from as the next snapshot and
    makes one [turn]; the run ends on the first test that succeeds. *)
Inductive loop_run (mallocs : nat -> bool)
    : nat -> Centroids -> session -> nat -> session -> Prop :=
| loop_run_stop (it : nat) (previous : Centroids) (w : session) :
    converged previous (centroids w) = true ->
    loop_run mallocs it previous w O w
| loop_run_turn (it : nat) (previous : Centroids) (w w1 : session)
    (n : nat) (w' : session) :
    converged previous (centroids w) = false ->
    turn (mallocs (S it)) w = Done w1 ->
    loop_run mallocs (S it) (mkda (items (centroids w)) (capacity previous))
      w1 n w' ->
    loop_run mallocs it previous w (S n) w'.

(** The colour [draw_samples] picks for a cluster field. *)
Definition sample_color (cluster : Z) : option Color :=
  if cluster =? -1 then Some PINK
  else if cluster <? 0 then None
  else centroids_colors !! Z.to_nat cluster.

(** The circle [draw_samples] draws for a sample, and the one
    [draw_centroids] draws for the centroid of index [k]. *)
Definition sample_circle (sample : Sample.t) (circ : circle) : Prop :=
  to_int (Sample.x sample) = Some (centerX circ) /\
  to_int (Sample.y sample) = Some (centerY circ) /\
  radius circ = F32.of_int SAMPLE_RADIUS /\
  sample_color (Sample.cluster sample) = Some (color circ).

Definition centroid_circle (k : nat) (centroid : Vector2.t) (circ : circle)
    : Prop :=
  to_int (Vector2.x centroid) = Some (centerX circ) /\
  to_int (Vector2.y centroid) = Some (centerY circ) /\
  radius circ = F32.of_int CENTROID_RADIUS /\
  centroids_colors !! k = Some (color circ).

(** A sample [draw_samples] can draw: the palette has a colour for its
    cluster field and its coordinates convert to [int]. *)
Definition drawable (sample : Sample.t) : Prop :=
  -1 <= Sample.cluster sample < 3 /\
  is_Some (to_int (Sample.x sample)) /\ is_Some (to_int (Sample.y sample)).

(** A centroid whose coordinates convert to [int]. *)
Definition on_grid (centroid : Vector2.t) : Prop :=
  is_Some (to_int (Vector2.x centroid)) /\ is_Some (to_int (Vector2.y centroid)).

(** [b - a] is the opposite of [a - b], up to the sign of an exact zero. *)
Definition opposite_or_zero (u v : float) : Prop :=
  v = F32.opp u \/ (u = F32.zero /\ v = F32.zero).

(** ** Proof automation *)

(** Case analysis on the comparisons of exponents and mantissas inside
    [SFcompare]. *)
Ltac cmp_cases :=
  repeat match goal with
  | |- context [Z.compare ?a ?b] => destruct (Z.compare_spec a b); subst
  | |- context [Pos.compare ?a ?b] => destruct (Pos.compare_spec a b); subst
  end; simpl; try congruence; try lia.

Ltac by_cases3 a b c :=
  destruct a as [[]|[]| |[] ? ?], b as [[]|[]| |[] ? ?], c as [[]|[]| |[] ? ?];
  simpl; try congruence;
  change (Pos.compare_cont Eq) with Pos.compare; cmp_cases.

(** * Properties *)

(** ** Comparison of binary32 values *)

Lemma SFcompare_Lt_trans (a b c : spec_float) :
  SFcompare a b = Some Lt -> SFcompare b c = Some Lt -> SFcompare a c = Some Lt.
Proof. by_cases3 a b c. Qed.

Lemma SFcompare_Eq_Lt_trans (a b c : spec_float) :
  SFcompare a b = Some Eq -> SFcompare b c = Some Lt -> SFcompare a c = Some Lt.
Proof. by_cases3 a b c. Qed.

Lemma SFcompare_Lt_Gt (a b : spec_float) :
  SFcompare a b = Some Lt -> SFcompare b a = Some Gt.
Proof.
  destruct a as [[]|[]| |[] ? ?], b as [[]|[]| |[] ? ?];
    simpl; try congruence;
    change (Pos.compare_cont Eq) with Pos.compare; cmp_cases.
Qed.

Lemma ltb_compare (a b : float) : (a <? b)%f32 = true <-> SFcompare a b = Some Lt.
Proof.
  unfold F32.ltb, SFltb. destruct (SFcompare a b) as [[]|]; split; congruence.
Qed.

Lemma eqb_compare (a b : float) : F32.eqb a b = true <-> SFcompare a b = Some Eq.
Proof.
  unfold F32.eqb, SFeqb. destruct (SFcompare a b) as [[]|]; split; congruence.
Qed.

Lemma ltb_trans (a b c : float) :
  (a <? b)%f32 = true -> (b <? c)%f32 = true -> (a <? c)%f32 = true.
Proof. rewrite !ltb_compare. apply SFcompare_Lt_trans. Qed.

Lemma eqb_ltb_trans (a b c : float) :
  F32.eqb a b = true -> (b <? c)%f32 = true -> (a <? c)%f32 = true.
Proof. rewrite eqb_compare, !ltb_compare. apply SFcompare_Eq_Lt_trans. Qed.

Lemma ltb_asym (a b : float) : (a <? b)%f32 = true -> (b <? a)%f32 = false.
Proof.
  rewrite ltb_compare. intros H%SFcompare_Lt_Gt.
  unfold F32.ltb, SFltb. now rewrite H.
Qed.

Lemma ltb_irrefl (a : float) : (a <? a)%f32 = false.
Proof.
  destruct (a <? a)%f32 eqn:E; [|reflexivity].
  now rewrite (ltb_asym _ _ E) in E.
Qed.

Lemma ltb_not_eqb (a b : float) : (a <? b)%f32 = true -> F32.eqb b a = false.
Proof.
  rewrite ltb_compare. intros H%SFcompare_Lt_Gt.
  unfold F32.eqb, SFeqb. now rewrite H.
Qed.

Lemma SFcompare_swap (a b : spec_float) :
  SFcompare b a = option_map CompOpp (SFcompare a b).
Proof.
  destruct a as [[]|[]| |[] ? ?], b as [[]|[]| |[] ? ?]; simpl; try reflexivity;
    change (Pos.compare_cont Eq) with Pos.compare;
    rewrite (Z.compare_antisym e e0), (Pos.compare_antisym m m0);
    destruct (e ?= e0), (m ?= m0)%positive; reflexivity.
Qed.

Lemma leb_not_ltb (a b : float) : F32.leb a b = true -> (b <? a)%f32 = false.
Proof.
  unfold F32.leb, SFleb, F32.ltb, SFltb. rewrite (SFcompare_swap a b).
  destruct (SFcompare a b) as [[]|]; simpl; congruence.
Qed.

Lemma SFcompare_numbers (a b : float) :
  F32.is_nan a = false -> F32.is_nan b = false -> SFcompare a b <> None.
Proof. destruct a, b; simpl; congruence. Qed.

Lemma not_ltb_leb (a b : float) :
  F32.is_nan a = false -> F32.is_nan b = false ->
  (b <? a)%f32 = false -> F32.leb a b = true.
Proof.
  intros Ha Hb. pose proof (SFcompare_numbers a b Ha Hb) as Hnum.
  unfold F32.leb, SFleb, F32.ltb, SFltb. rewrite (SFcompare_swap a b).
  destruct (SFcompare a b) as [[]|]; simpl; congruence.
Qed.

Lemma ltb_number (a b : float) :
  (a <? b)%f32 = true -> F32.is_nan a = false /\ F32.is_nan b = false.
Proof.
  unfold F32.ltb, SFltb. destruct a, b; simpl; try discriminate; auto.
Qed.

Lemma leb_antisym (a b : float) :
  F32.leb a b = true -> F32.leb b a = true -> F32.eqb a b = true.
Proof.
  unfold F32.leb, SFleb, F32.eqb, SFeqb. rewrite (SFcompare_swap a b).
  destruct (SFcompare a b) as [[]|]; simpl; congruence.
Qed.

Lemma eqb_sym (a b : float) : F32.eqb a b = true -> F32.eqb b a = true.
Proof.
  unfold F32.eqb, SFeqb. rewrite (SFcompare_swap a b).
  destruct (SFcompare a b) as [[]|]; simpl; congruence.
Qed.

(** ** The scan of [assign_step] *)

(** Either no centroid beats the initial [best_distance] and nothing changes,
    or the result is the first centroid, in scanning order, at the least
    distance. *)
Lemma assign_scan_spec (sample : Sample.t) (cs : list Vector2.t) :
  forall (k : Z) (best : float) (cl : Z),
    (assign_scan sample cs k best cl = (best, cl) /\
     forall j cj, cs !! j = Some cj -> (distance sample cj <? best)%f32 = false)
    \/
    (exists i ci,
       cs !! i = Some ci /\
       assign_scan sample cs k best cl = (distance sample ci, k + Z.of_nat i) /\
       (distance sample ci <? best)%f32 = true /\
       forall j cj, cs !! j = Some cj ->
         (distance sample cj <? distance sample ci)%f32 = false /\
         (F32.eqb (distance sample cj) (distance sample ci) = true -> (i <= j)%nat)).
Proof.
  induction cs as [|c cs IH]; intros k best cl.
  - left. split; [reflexivity|]. intros j cj Hj. discriminate.
  - simpl. destruct (distance sample c <? best)%f32 eqn:Hlt.
    + destruct (IH (k + 1) (distance sample c) k)
        as [[Heq Hno]|(i & ci & Hi & Heq & Hbest & Hmin)].
      * right. exists O, c.
        split; [reflexivity|]. split; [rewrite Heq; f_equal; lia|].
        split; [exact Hlt|].
        intros [|j] cj Hj; simpl in Hj.
        -- injection Hj as <-. split; [apply ltb_irrefl | lia].
        -- split; [eapply Hno; eauto | lia].
      * right. exists (S i), ci.
        split; [exact Hi|]. split; [rewrite Heq; f_equal; lia|].
        split; [eapply ltb_trans; eauto|].
        intros [|j] cj Hj; simpl in Hj.
        -- injection Hj as <-. split; [now apply ltb_asym|].
           intros He. rewrite (ltb_not_eqb _ _ Hbest) in He. discriminate.
        -- destruct (Hmin j cj Hj) as [Hnlt Hfirst].
           split; [exact Hnlt|]. intros He. apply Hfirst in He. lia.
    + destruct (IH (k + 1) best cl)
        as [[Heq Hno]|(i & ci & Hi & Heq & Hbest & Hmin)].
      * left. split; [exact Heq|]. intros [|j] cj Hj; simpl in Hj.
        -- now injection Hj as <-.
        -- eapply Hno; eauto.
      * right. exists (S i), ci.
        split; [exact Hi|]. split; [rewrite Heq; f_equal; lia|].
        split; [exact Hbest|].
        intros [|j] cj Hj; simpl in Hj.
        -- injection Hj as <-. split.
           ++ destruct (distance sample c <? distance sample ci)%f32 eqn:E;
                [|reflexivity].
              rewrite (ltb_trans _ _ _ E Hbest) in Hlt. discriminate.
           ++ intros He. rewrite (eqb_ltb_trans _ _ _ He Hbest) in Hlt.
              discriminate.
        -- destruct (Hmin j cj Hj) as [Hnlt Hfirst].
           split; [exact Hnlt|]. intros He. apply Hfirst in He. lia.
Qed.

(** ** [assign_step] *)

Lemma assign_sample_unreached (c : Centroids) (sample : Sample.t) :
  (forall j cj, items c !! j = Some cj ->
     (distance sample cj <? F32.FLT_MAX)%f32 = false) ->
  assign_sample c sample = sample.
Proof.
  intros Hfar. unfold assign_sample.
  destruct (assign_scan_spec sample (items c) 0 F32.FLT_MAX (Sample.cluster sample))
    as [[Heq _]|(i & ci & Hi & _ & Hlt & _)].
  - rewrite Heq. now destruct sample.
  - rewrite (Hfar i ci Hi) in Hlt. discriminate.
Qed.

Lemma assign_sample_reached (c : Centroids) (sample : Sample.t) :
  in_reach c sample ->
  assigned_lowest_nearest c sample (assign_sample c sample) /\
  cluster_valid (count c) (assign_sample c sample).
Proof.
  intros (j & cj & Hj & Hlt). unfold assign_sample.
  destruct (assign_scan_spec sample (items c) 0 F32.FLT_MAX (Sample.cluster sample))
    as [[_ Hno]|(i & ci & Hi & Heq & Hbest & Hmin)].
  - rewrite (Hno j cj Hj) in Hlt. discriminate.
  - rewrite Heq. simpl. split.
    + split; [reflexivity|]. split; [reflexivity|].
      exists i, ci. simpl. split; [lia|]. split; [exact Hi|].
      split; [exact Hbest|]. intros j' cj' Hj'.
      destruct (Hmin j' cj' Hj') as [Hnlt Hfirst].
      split; [exact Hnlt|]. split; [|exact Hfirst].
      intros Hnum. apply not_ltb_leb; [|exact Hnum|exact Hnlt].
      now apply ltb_number in Hbest.
    + unfold cluster_valid, count. simpl.
      apply lookup_lt_Some in Hi. lia.
Qed.

(** The nearest centroid of lowest index is unique. *)
Lemma assigned_lowest_nearest_unique (c : Centroids) (sample s1 s2 : Sample.t) :
  assigned_lowest_nearest c sample s1 ->
  assigned_lowest_nearest c sample s2 ->
  Sample.cluster s1 = Sample.cluster s2.
Proof.
  intros (_ & _ & k1 & c1 & -> & Hk1 & Hb1 & Hmin1)
         (_ & _ & k2 & c2 & -> & Hk2 & Hb2 & Hmin2).
  destruct (Hmin1 k2 c2 Hk2) as (_ & Hle12 & Hfirst1).
  destruct (Hmin2 k1 c1 Hk1) as (_ & Hle21 & Hfirst2).
  apply ltb_number in Hb1, Hb2. destruct Hb1 as [Hn1 _], Hb2 as [Hn2 _].
  specialize (Hle12 Hn2). specialize (Hle21 Hn1).
  pose proof (leb_antisym _ _ Hle12 Hle21) as He.
  specialize (Hfirst2 He). apply eqb_sym in He. specialize (Hfirst1 He). lia.
Qed.

Lemma assigned_lowest_nearest_index (c : Centroids) (sample sample' : Sample.t) :
  (forall j cj, items c !! j = Some cj -> F32.is_nan (distance sample cj) = false) ->
  assigned_lowest_nearest c sample sample' ->
  exists k, Sample.cluster sample' = Z.of_nat k /\ nearest_lowest_index c sample k.
Proof.
  intros Hnum (_ & _ & k & ck & Hcl & Hk & _ & Hmin).
  exists k. split; [exact Hcl|]. exists ck. split; [exact Hk|].
  intros j cj Hj. destruct (Hmin j cj Hj) as (_ & Hle & Hfirst).
  split; [apply Hle; eapply Hnum; eauto | exact Hfirst].
Qed.

Lemma assign_sample_cases (c : Centroids) (sample : Sample.t) :
  assign_sample c sample = sample \/ cluster_valid (count c) (assign_sample c sample).
Proof.
  unfold assign_sample.
  destruct (assign_scan_spec sample (items c) 0 F32.FLT_MAX (Sample.cluster sample))
    as [[Heq _]|(i & ci & Hi & Heq & _ & _)]; rewrite Heq; simpl.
  - left. now destruct sample.
  - right. unfold cluster_valid, count. simpl. apply lookup_lt_Some in Hi. lia.
Qed.

(** C2, as amended.  For every sample that has a centroid at a distance
    below FLT_MAX, [assign_step] sets the cluster field of the sample to
    the index of the nearest centroid: its distance is a number below
    FLT_MAX, no centroid is strictly closer, every centroid whose distance
    is a number is at least as far, and among the centroids at exactly that
    distance it is the lowest index, the scan going up and the comparison
    being strict.  That index is the only one with these properties, and
    when every distance is a number it is the index of the minimum-distance
    centroid, the lowest one of them. *)
Theorem assign_step_lowest_nearest (c : Centroids) (s : Samples)
    (i : nat) (sample : Sample.t) :
  items s !! i = Some sample ->
  in_reach c sample ->
  exists sample',
    items (assign_step c s) !! i = Some sample' /\
    assigned_lowest_nearest c sample sample' /\
    (forall sample'',
       assigned_lowest_nearest c sample sample'' ->
       Sample.cluster sample'' = Sample.cluster sample') /\
    ((forall j cj, items c !! j = Some cj ->
        F32.is_nan (distance sample cj) = false) ->
     exists k,
       Sample.cluster sample' = Z.of_nat k /\ nearest_lowest_index c sample k).
Proof.
  intros Hi Hreach. exists (assign_sample c sample).
  destruct (assign_sample_reached c sample Hreach) as [Hnear _].
  split; [|split; [exact Hnear|split]].
  - unfold assign_step. simpl. rewrite list_lookup_fmap, Hi. reflexivity.
  - intros sample'' H''. now apply (assigned_lowest_nearest_unique c sample).
  - intros Hnum. now apply (assigned_lowest_nearest_index c sample).
Qed.

Lemma assign_step_lowest_nearest_witness :
  exists sample',
    items (assign_step (mkda [vec 3 0; vec 0 3; vec 0 (-3)] 10) fresh_samples) !! O
      = Some sample' /\
    assigned_lowest_nearest (mkda [vec 3 0; vec 0 3; vec 0 (-3)] 10)
      (smp 0 0 UNASSIGNED) sample' /\
    (forall sample'',
       assigned_lowest_nearest (mkda [vec 3 0; vec 0 3; vec 0 (-3)] 10)
         (smp 0 0 UNASSIGNED) sample'' ->
       Sample.cluster sample'' = Sample.cluster sample') /\
    ((forall j cj, items (mkda [vec 3 0; vec 0 3; vec 0 (-3)] 10) !! j = Some cj ->
        F32.is_nan (distance (smp 0 0 UNASSIGNED) cj) = false) ->
     exists k,
       Sample.cluster sample' = Z.of_nat k /\
       nearest_lowest_index (mkda [vec 3 0; vec 0 3; vec 0 (-3)] 10)
         (smp 0 0 UNASSIGNED) k).
Proof.
  apply (assign_step_lowest_nearest
           (mkda [vec 3 0; vec 0 3; vec 0 (-3)] 10) fresh_samples O
           (smp 0 0 UNASSIGNED)).
  - reflexivity.
  - exists O, (vec 3 0). split; reflexivity.
Defined.

(** Three centroids at distance 3 of the origin: the first one wins. *)
Example assign_step_tie :
  map Sample.cluster
    (items (assign_step (mkda [vec 3 0; vec 0 3; vec 0 (-3)] 10) fresh_samples))
  = [0; 0].
Proof. vm_compute. reflexivity. Qed.

(** C2, as stated, fails: with one centroid at (2^100, 0) the distance of
    the sample (0, 0) overflows to infinity, which is not below FLT_MAX.
    Index 0 is the index of the minimum-distance centroid, yet the sample
    keeps the sentinel, which indexes no centroid. *)
Lemma assign_step_far_centroid :
  F32.representable two_100 = true /\
  items far_centroid <> [] /\
  items (assign_step far_centroid (mkda [origin_sample] 10)) = [origin_sample] /\
  ~ assigned_lowest_nearest far_centroid origin_sample
      (assign_sample far_centroid origin_sample) /\
  nearest_lowest_index far_centroid origin_sample 0 /\
  Sample.cluster (assign_sample far_centroid origin_sample) = UNASSIGNED /\
  ~ (exists k,
       Sample.cluster (assign_sample far_centroid origin_sample) = Z.of_nat k /\
       nearest_lowest_index far_centroid origin_sample k).
Proof.
  split; [reflexivity|]. split; [discriminate|]. split; [reflexivity|].
  split; [|split; [|split]].
  - intros (_ & _ & k & ck & Hk & _).
    vm_compute in Hk. destruct k; discriminate.
  - exists (Vector2.mk two_100 F32.zero). split; [reflexivity|].
    intros [|j] cj Hj; simpl in Hj; [|discriminate].
    injection Hj as <-. split; [reflexivity | lia].
  - reflexivity.
  - intros (k & Hk & _). vm_compute in Hk. destruct k; discriminate.
Qed.

(** ** [da_append] and [generate_samples] *)

Lemma da_append_items {T : Type} (realloc_ok : Z -> bool) (a a' : da T) (item : T) :
  da_append realloc_ok a item = Done a' -> items a' = items a ++ [item].
Proof.
  unfold da_append. intros H.
  repeat match type of H with
         | (if ?b then _ else _) = _ => destruct b
         end; try discriminate; now injection H as <-.
Qed.

Lemma da_append_done {T : Type} (realloc_ok : Z -> bool) (a : da T) (item : T) :
  (forall n, realloc_ok n = true) ->
  well_formed a -> 2 * count a <= INT_MAX ->
  exists a', da_append realloc_ok a item = Done a' /\ well_formed a'.
Proof.
  unfold well_formed, da_append, count, INT_MAX, INITIAL_CAPACITY.
  intros Hok Hwf Hmax. rewrite Hok. simpl negb. cbv iota zeta.
  destruct (capacity a <=? Z.of_nat (length (items a))) eqn:Hfull.
  - apply Z.leb_le in Hfull.
    destruct (capacity a =? 0) eqn:Hzero; simpl.
    + apply Z.eqb_eq in Hzero.
      destruct (10 <=? Z.of_nat (length (items a))) eqn:Hten; [apply Z.leb_le in Hten; lia|].
      eexists. split; [reflexivity|]. simpl. rewrite length_app. simpl. lia.
    + apply Z.eqb_neq in Hzero.
      destruct (2147483647 <? capacity a * 2) eqn:Hovf; [apply Z.ltb_lt in Hovf; lia|].
      destruct (capacity a * 2 <=? Z.of_nat (length (items a))) eqn:Hsmall;
        [apply Z.leb_le in Hsmall; lia|].
      eexists. split; [reflexivity|]. simpl. rewrite length_app. simpl. lia.
  - apply Z.leb_gt in Hfull.
    eexists. split; [reflexivity|]. simpl. rewrite length_app. simpl. lia.
Qed.

Section GeneratorFacts.

Variable RAND_MAX : Z.
Variable rand : nat -> Z.
Variable realloc_ok : Z -> bool.

Lemma generate_samples_appends (center : Vector2.t) (radius : spec_float)
    (num_samples : nat) :
  forall (s s' : Samples) (seed seed' : nat),
    generate_samples RAND_MAX rand realloc_ok s center num_samples radius seed
      = Done (s', seed') ->
    exists new,
      items s' = items s ++ new /\
      length new = num_samples /\
      Forall (fun sample => Sample.cluster sample = UNASSIGNED) new.
Proof.
  induction num_samples as [|n IH]; intros s s' seed seed' H; simpl in H.
  - injection H as <- <-. exists []. rewrite app_nil_r. repeat split. constructor.
  - match type of H with
    | context [da_append _ _ ?it] =>
        destruct (da_append realloc_ok s it) as [s1| | |] eqn:Happ; try discriminate
    end.
    apply da_append_items in Happ. simpl in H.
    destruct (IH _ _ _ _ H) as (new & Hitems & Hlen & Hall).
    eexists (_ :: new). rewrite Hitems, Happ, <- app_assoc. simpl.
    split; [reflexivity|]. split; [now rewrite Hlen|].
    constructor; [reflexivity | exact Hall].
Qed.

Lemma generate_samples_done (center : Vector2.t) (radius : spec_float)
    (num_samples : nat) :
  (forall n, realloc_ok n = true) ->
  forall (s : Samples) (seed : nat),
    well_formed s ->
    2 * (count s + Z.of_nat num_samples) <= INT_MAX ->
    exists s' seed',
      generate_samples RAND_MAX rand realloc_ok s center num_samples radius seed
        = Done (s', seed').
Proof.
  intros Hok. induction num_samples as [|n IH]; intros s seed Hwf Hmax; simpl.
  - eauto.
  - match goal with
    | |- context [da_append _ _ ?it] =>
        destruct (da_append_done realloc_ok s it Hok Hwf) as (s1 & Happ & Hwf1);
          [lia|]; rewrite Happ; pose proof (da_append_items _ _ _ _ Happ) as Hitems
    end.
    simpl. apply IH; [exact Hwf1|].
    unfold count in *. rewrite Hitems, length_app. simpl. lia.
Qed.

End GeneratorFacts.

(** C9.  A call of [generate_samples] that returns has appended exactly
    [num_samples] samples at the end of the collection, each of them with
    the unassigned sentinel as cluster, the samples present before keeping
    their values and their places; and the call does return when every
    [realloc] succeeds and the counts stay within [int]. *)
Theorem generate_samples_appends_unassigned
    (RAND_MAX : Z) (rand : nat -> Z) (realloc_ok : Z -> bool)
    (s : Samples) (center : Vector2.t) (num_samples : nat)
    (radius : spec_float) (seed : nat) :
  (forall s' seed',
     generate_samples RAND_MAX rand realloc_ok s center num_samples radius seed
       = Done (s', seed') ->
     count s' = count s + Z.of_nat num_samples /\
     (forall i sample, items s !! i = Some sample -> items s' !! i = Some sample) /\
     (forall i sample, (length (items s) <= i)%nat ->
        items s' !! i = Some sample -> Sample.cluster sample = UNASSIGNED)) /\
  ((forall n, realloc_ok n = true) ->
   well_formed s ->
   2 * (count s + Z.of_nat num_samples) <= INT_MAX ->
   exists s' seed',
     generate_samples RAND_MAX rand realloc_ok s center num_samples radius seed
       = Done (s', seed')).
Proof.
  split.
  - intros s' seed' H.
    destruct (generate_samples_appends _ _ _ _ _ _ _ _ _ _ H) as (new & Hitems & Hlen & Hall).
    unfold count. rewrite Hitems. split; [rewrite length_app; lia|]. split.
    + intros i sample Hi. now apply lookup_app_l_Some.
    + intros i sample Hge Hi. rewrite lookup_app_r in Hi by exact Hge.
      rewrite Forall_lookup in Hall. eapply Hall; eauto.
  - intros Hok Hwf Hmax. now apply generate_samples_done.
Qed.

Lemma generate_samples_appends_unassigned_witness :
  exists s' seed',
    generate_samples 2147483647 (fun n => Z.of_nat n) (fun _ => true)
      fresh_samples (vec 400 300) 3 (S754_finite false 7036874417766400 (-47)) O
      = Done (s', seed').
Proof.
  apply (generate_samples_appends_unassigned 2147483647 (fun n => Z.of_nat n)
           (fun _ => true) fresh_samples (vec 400 300) 3
           (S754_finite false 7036874417766400 (-47)) O).
  - reflexivity.
  - unfold well_formed. vm_compute. discriminate.
  - vm_compute. discriminate.
Defined.

(** ** The cluster field *)

Lemma assign_sample_out_of_reach (c : Centroids) (sample : Sample.t) :
  ~ in_reach c sample -> assign_sample c sample = sample.
Proof.
  intros Hnot. apply assign_sample_unreached. intros j cj Hj.
  destruct (distance sample cj <? F32.FLT_MAX)%f32 eqn:E; [|reflexivity].
  exfalso. apply Hnot. now exists j, cj.
Qed.

(** C8, as amended.  The samples appended by [generate_samples] carry the
    sentinel, and [generate_samples] and [assign_step] keep every cluster
    field either the sentinel or an index into the centroids; after
    [assign_step] the cluster field of a sample is an index into the
    centroids as soon as one centroid is at a distance below FLT_MAX of
    that sample, whatever the other samples are, and a sample without such
    a centroid is left as it was. *)
Theorem cluster_sentinel_or_index (c : Centroids) (s : Samples) :
  (forall RAND_MAX rand realloc_ok center num_samples radius seed s' seed',
     generate_samples RAND_MAX rand realloc_ok s center num_samples radius seed
       = Done (s', seed') ->
     (forall i sample, (length (items s) <= i)%nat ->
        items s' !! i = Some sample -> Sample.cluster sample = UNASSIGNED) /\
     (Forall (cluster_ok (count c)) (items s) ->
      Forall (cluster_ok (count c)) (items s'))) /\
  (Forall (cluster_ok (count c)) (items s) ->
   Forall (cluster_ok (count c)) (items (assign_step c s))) /\
  (Forall (in_reach c) (items s) ->
   Forall (cluster_valid (count c)) (items (assign_step c s))) /\
  (forall i sample,
     items s !! i = Some sample ->
     exists sample',
       items (assign_step c s) !! i = Some sample' /\
       (cluster_ok (count c) sample -> cluster_ok (count c) sample') /\
       (in_reach c sample -> cluster_valid (count c) sample') /\
       (~ in_reach c sample -> sample' = sample)).
Proof.
  split; [|split; [|split]].
  - intros RAND_MAX rand realloc_ok center n radius seed s' seed' H.
    destruct (generate_samples_appends _ _ _ _ _ _ _ _ _ _ H)
      as (new & Hitems & Hlen & Hall).
    rewrite Hitems. split.
    + intros i sample Hge Hi. rewrite lookup_app_r in Hi by exact Hge.
      rewrite Forall_lookup in Hall. eapply Hall; eauto.
    + intros Hold. apply Forall_app. split; [exact Hold|].
      eapply Forall_impl; [exact Hall|]. intros sample Hs. now left.
  - intros Hok. unfold assign_step. simpl. apply Forall_fmap.
    eapply Forall_impl; [exact Hok|]. intros sample Hs. simpl.
    destruct (assign_sample_cases c sample) as [-> | Hv]; [exact Hs|].
    right. exact Hv.
  - intros Hreach. unfold assign_step. simpl. apply Forall_fmap.
    eapply Forall_impl; [exact Hreach|]. intros sample Hs. simpl.
    now apply assign_sample_reached.
  - intros i sample Hi. exists (assign_sample c sample).
    split; [unfold assign_step; simpl; now rewrite list_lookup_fmap, Hi|].
    split; [|split].
    + intros Hs. destruct (assign_sample_cases c sample) as [-> | Hv];
        [exact Hs | right; exact Hv].
    + intros Hreach. now apply assign_sample_reached.
    + apply assign_sample_out_of_reach.
Qed.

Lemma cluster_sentinel_or_index_witness :
  Forall (cluster_ok 2) (items (assign_step lost_centroids fresh_samples)) /\
  Forall (cluster_valid 3)
    (items (assign_step (mkda [vec 3 0; vec 0 3; vec 0 (-3)] 10) fresh_samples)) /\
  (exists sample',
     items (assign_step (mkda [vec 3 0; vec 0 3; vec 0 (-3)] 10) fresh_samples)
       !! 1%nat = Some sample' /\
     (cluster_ok 3 (smp 1 1 UNASSIGNED) -> cluster_ok 3 sample') /\
     (in_reach (mkda [vec 3 0; vec 0 3; vec 0 (-3)] 10) (smp 1 1 UNASSIGNED) ->
      cluster_valid 3 sample') /\
     (~ in_reach (mkda [vec 3 0; vec 0 3; vec 0 (-3)] 10) (smp 1 1 UNASSIGNED) ->
      sample' = smp 1 1 UNASSIGNED)).
Proof.
  split; [|split].
  - apply (proj1 (proj2 (cluster_sentinel_or_index lost_centroids fresh_samples))).
    repeat constructor; left; reflexivity.
  - apply (proj1 (proj2 (proj2 (cluster_sentinel_or_index
                           (mkda [vec 3 0; vec 0 3; vec 0 (-3)] 10) fresh_samples)))).
    repeat constructor; exists O, (vec 3 0); split; reflexivity.
  - apply (proj2 (proj2 (proj2 (cluster_sentinel_or_index
                           (mkda [vec 3 0; vec 0 3; vec 0 (-3)] 10) fresh_samples)))
             1%nat (smp 1 1 UNASSIGNED)).
    reflexivity.
Defined.

(** C8, as stated, fails: two centroids that are not a number attract no
    sample, and the fresh samples keep the sentinel through [assign_step],
    outside [0, 2). *)
Lemma assign_step_lost_centroids :
  1 <= count lost_centroids /\
  items (assign_step lost_centroids fresh_samples) = items fresh_samples /\
  ~ Forall (cluster_valid (count lost_centroids))
      (items (assign_step lost_centroids fresh_samples)).
Proof.
  split; [vm_compute; discriminate|]. split; [reflexivity|].
  intros H. apply Forall_inv in H. vm_compute in H. destruct H as [H _].
  now apply H.
Qed.

(** ** [update_step] *)

Lemma members_cons (k : Z) (sample : Sample.t) (ss : list Sample.t) :
  members k (sample :: ss) =
  if Sample.cluster sample =? k then sample :: members k ss else members k ss.
Proof. reflexivity. Qed.

(** The accumulation loop adds, to every cell, the members of its cluster. *)
Lemma accumulate_cells (ss : list Sample.t) :
  forall mean_array mean_array',
    accumulate ss mean_array = Done mean_array' ->
    length mean_array' = length mean_array /\
    forall (k : nat) (m : Mean.t),
      mean_array !! k = Some m ->
      mean_array' !! k =
        Some (Mean.mk (sum_x (Mean.mean_x m) (members (Z.of_nat k) ss))
                      (sum_y (Mean.mean_y m) (members (Z.of_nat k) ss))
                      (Mean.total m + Z.of_nat (length (members (Z.of_nat k) ss)))).
Proof.
  induction ss as [|sample ss IH]; intros ma ma' H; simpl in H.
  - injection H as <-. split; [reflexivity|].
    intros k [mx my t] Hk. simpl. rewrite Hk. do 2 f_equal. lia.
  - destruct (Sample.cluster sample <? 0) eqn:Hneg; [discriminate|].
    apply Z.ltb_ge in Hneg.
    destruct (ma !! Z.to_nat (Sample.cluster sample)) as [m0|] eqn:Hcell;
      [|discriminate].
    apply IH in H. destruct H as [Hlen Hcells].
    rewrite length_insert in Hlen. split; [exact Hlen|].
    intros k m Hk. rewrite members_cons.
    destruct (Sample.cluster sample =? Z.of_nat k) eqn:Hcl.
    + apply Z.eqb_eq in Hcl.
      assert (Z.to_nat (Sample.cluster sample) = k) as Hidx by lia.
      rewrite Hidx in Hcell, Hcells. rewrite Hk in Hcell. injection Hcell as <-.
      erewrite Hcells; [|apply list_lookup_insert_eq; eapply lookup_lt_Some; eauto].
      simpl. do 2 f_equal. lia.
    + apply Z.eqb_neq in Hcl.
      apply Hcells. rewrite list_lookup_insert_ne by lia. exact Hk.
Qed.

Lemma accumulate_done (ss : list Sample.t) :
  forall mean_array,
    Forall (cluster_valid (Z.of_nat (length mean_array))) ss ->
    exists mean_array', accumulate ss mean_array = Done mean_array'.
Proof.
  induction ss as [|sample ss IH]; intros ma Hall; simpl.
  - eauto.
  - apply Forall_cons in Hall. destruct Hall as [[Hlo Hhi] Hall].
    destruct (Sample.cluster sample <? 0) eqn:Hneg; [apply Z.ltb_lt in Hneg; lia|].
    destruct (lookup_lt_is_Some_2 ma (Z.to_nat (Sample.cluster sample))) as [m0 ->];
      [lia|].
    apply IH. now rewrite length_insert.
Qed.

Lemma accumulate_undefined (ss : list Sample.t) :
  forall mean_array,
    Exists (fun sample => ~ cluster_valid (Z.of_nat (length mean_array)) sample) ss ->
    accumulate ss mean_array = Undefined.
Proof.
  induction ss as [|sample ss IH]; intros ma Hex; simpl.
  - inversion Hex.
  - destruct (Sample.cluster sample <? 0) eqn:Hneg; [reflexivity|].
    apply Z.ltb_ge in Hneg.
    destruct (ma !! Z.to_nat (Sample.cluster sample)) as [m0|] eqn:Hcell;
      [|reflexivity].
    apply Exists_cons in Hex. destruct Hex as [Hbad|Hex].
    + exfalso. apply Hbad. apply lookup_lt_Some in Hcell.
      unfold cluster_valid. lia.
    + apply IH. now rewrite length_insert.
Qed.

Lemma update_step_cells (c c' : Centroids) (s : Samples) (lines : list string) :
  update_step true c s = Done (c', lines) ->
  lines = [] /\ capacity c' = capacity c /\ count c' = count c /\
  forall k : nat, (k < length (items c))%nat ->
    items c' !! k = Some (cluster_mean (Z.of_nat k) (items s)).
Proof.
  unfold update_step. simpl.
  destruct (accumulate (items s) (replicate (length (items c)) mean_zero))
    as [ma| | |] eqn:Hacc; try discriminate.
  simpl. intros H. injection H as <- <-.
  apply accumulate_cells in Hacc. destruct Hacc as [Hlen Hcells].
  rewrite length_replicate in Hlen.
  split; [reflexivity|]. split; [reflexivity|].
  split; [unfold count; simpl; rewrite length_map; lia|].
  intros k Hk. simpl. rewrite list_lookup_fmap.
  rewrite (Hcells k mean_zero).
  - reflexivity.
  - apply lookup_replicate_2. exact Hk.
Qed.

(** C1.  When [update_step] returns after a successful allocation, every
    centroid [k] that has at least one sample is at the mean of the samples
    whose cluster is [k]: the sum of their x divided by their number and the
    sum of their y divided by their number.  In particular the four corners
    (0,0), (2,0), (0,2), (2,2), all of cluster 0, put centroid 0 at (1,1). *)
Theorem update_step_mean :
  (forall (c c' : Centroids) (s : Samples) (lines : list string) (k : Z),
     update_step true c s = Done (c', lines) ->
     0 <= k < count c ->
     (1 <= length (members k (items s)))%nat ->
     items c' !! Z.to_nat k = Some (cluster_mean k (items s))) /\
  (forall (c : Centroids) (c0 : Vector2.t) (rest : list Vector2.t),
     items c = c0 :: rest ->
     exists c',
       update_step true c square = Done (c', []) /\
       items c' !! O = Some (vec 1 1)).
Proof.
  split.
  - intros c c' s lines k H Hk _.
    apply update_step_cells in H. destruct H as (_ & _ & _ & Hcells).
    unfold count in Hk. rewrite Hcells by lia. now rewrite Z2Nat.id by lia.
  - intros c c0 rest Hc.
    destruct (accumulate_done (items square) (replicate (length (items c)) mean_zero))
      as [ma Hacc].
    { rewrite length_replicate, Hc. simpl length.
      unfold cluster_valid. repeat constructor; simpl; lia. }
    assert (update_step true c square
            = Done (mkda (map mean_position ma) (capacity c), [])) as Hup.
    { unfold update_step, negb. rewrite Hacc. reflexivity. }
    eexists. split; [exact Hup|].
    apply update_step_cells in Hup. destruct Hup as (_ & _ & _ & Hcells).
    rewrite Hcells by (rewrite Hc; simpl; lia). reflexivity.
Qed.

Lemma update_step_mean_witness :
  items (mkda [vec 1 1; nan_position] 10) !! Z.to_nat 0
  = Some (cluster_mean 0 (items square)).
Proof.
  apply (proj1 update_step_mean (mkda [vec 7 7; vec 3 3] 10)
           (mkda [vec 1 1; nan_position] 10) square [] 0).
  - reflexivity.
  - unfold count. simpl. lia.
  - simpl. lia.
Defined.

(** C7.  When the allocation of [mean_array] fails, [update_step] writes its
    message to [stderr] and returns; no centroid has changed. *)
Theorem update_step_alloc_failure (c : Centroids) (s : Samples) :
  update_step false c s = Done (c, [update_step_error]).
Proof. reflexivity. Qed.

(** C10.  [update_step] reads [mean_array[sample.cluster]] unchecked.  When
    every cluster field is an index into the centroids, all accesses are in
    bounds and the function returns; when some is not, and the sentinel never
    is, an access is out of bounds. *)
Theorem update_step_bounds (c : Centroids) (s : Samples) :
  (Forall (cluster_valid (count c)) (items s) ->
   exists c', update_step true c s = Done (c', [])) /\
  (Exists (fun sample => ~ cluster_valid (count c) sample) (items s) ->
   update_step true c s = Undefined) /\
  (Exists (fun sample => Sample.cluster sample = UNASSIGNED) (items s) ->
   update_step true c s = Undefined).
Proof.
  assert (Exists (fun sample => ~ cluster_valid (count c) sample) (items s) ->
          update_step true c s = Undefined) as Hbad.
  { intros Hex. unfold update_step. simpl.
    rewrite accumulate_undefined; [reflexivity|]. now rewrite length_replicate. }
  split; [|split].
  - intros Hall. unfold update_step. simpl.
    destruct (accumulate_done (items s) (replicate (length (items c)) mean_zero))
      as [ma ->]; [now rewrite length_replicate|].
    simpl. eauto.
  - exact Hbad.
  - intros Hex. apply Hbad. eapply Exists_impl; [exact Hex|].
    intros sample Hs [Hlo _]. rewrite Hs in Hlo. unfold UNASSIGNED in Hlo. lia.
Qed.

Lemma update_step_bounds_witness :
  (exists c', update_step true (mkda [vec 7 7] 10) square = Done (c', [])) /\
  update_step true (mkda [vec 7 7] 10) fresh_samples = Undefined.
Proof.
  split.
  - apply (update_step_bounds (mkda [vec 7 7] 10) square).
    unfold cluster_valid. repeat constructor; simpl; lia.
  - apply (update_step_bounds (mkda [vec 7 7] 10) fresh_samples).
    apply Exists_cons_hd. reflexivity.
Defined.

(** ** [converged] *)

Lemma converged_scan_true (previus centroids : list Vector2.t) :
  length previus = length centroids ->
  converged_scan previus centroids = true <->
  forall i p c, previus !! i = Some p -> centroids !! i = Some c ->
    exceeds_epsilon (sq_displacement p c) = false.
Proof.
  revert centroids.
  induction previus as [|p0 previus IH]; intros [|c0 centroids] Hlen;
    try discriminate; simpl.
  - split; [|reflexivity]. intros _ i p c Hp. discriminate.
  - injection Hlen as Hlen. specialize (IH centroids Hlen).
    destruct (exceeds_epsilon (sq_displacement p0 c0)) eqn:Hex.
    + split; [discriminate|]. intros Hall.
      specialize (Hall O p0 c0 eq_refl eq_refl). congruence.
    + rewrite IH. split.
      * intros Hall [|i] p c Hp Hc; simpl in Hp, Hc.
        -- injection Hp as <-. injection Hc as <-. exact Hex.
        -- eapply Hall; eauto.
      * intros Hall i p c Hp Hc. apply (Hall (S i) p c); assumption.
Qed.

Lemma converged_true (previus centroids : Centroids) :
  converged previus centroids = true <->
  count previus = count centroids /\
  forall i p c, items previus !! i = Some p -> items centroids !! i = Some c ->
    exceeds_epsilon (sq_displacement p c) = false.
Proof.
  unfold converged.
  destruct (count previus =? count centroids) eqn:Hcount; simpl.
  - apply Z.eqb_eq in Hcount. rewrite converged_scan_true.
    + split; [intros H; split; assumption | intros [_ H]; exact H].
    + unfold count in Hcount. lia.
  - apply Z.eqb_neq in Hcount. split; [discriminate | intros [H _]; contradiction].
Qed.

Lemma exceeds_epsilon_false (d : float) :
  exceeds_epsilon d = false <-> within_epsilon d = true \/ F32.is_nan d = true.
Proof.
  unfold exceeds_epsilon, within_epsilon. split.
  - intros H. destruct (F32.is_nan d) eqn:Hd; [now right|].
    left. now apply not_ltb_leb.
  - intros [H | H].
    + now apply leb_not_ltb.
    + destruct d; try discriminate. reflexivity.
Qed.

(** C3, as amended.  [converged] returns false when the two counts differ;
    when they agree it returns false if at some index the squared
    displacement exceeds EPSILON, the binary32 value of 1e-4, and it returns
    true exactly when at no index the squared displacement exceeds EPSILON:
    that is, when every squared displacement is at most EPSILON or is not a
    number.  For a displacement that is a number, not to exceed EPSILON is
    to be at most EPSILON. *)
Theorem converged_spec (previus centroids : Centroids) :
  EPSILON = (F32.of_int 1 / F32.of_int 10000)%f32 /\
  (count previus <> count centroids -> converged previus centroids = false) /\
  (count previus = count centroids ->
   (exists i p c, items previus !! i = Some p /\ items centroids !! i = Some c /\
      exceeds_epsilon (sq_displacement p c) = true) ->
   converged previus centroids = false) /\
  (converged previus centroids = true <->
   count previus = count centroids /\
   forall i p c, items previus !! i = Some p -> items centroids !! i = Some c ->
     exceeds_epsilon (sq_displacement p c) = false) /\
  (forall d, F32.is_nan d = false ->
     exceeds_epsilon d = false <-> F32.leb d EPSILON = true) /\
  (converged previus centroids = true <->
   count previus = count centroids /\
   forall i p c, items previus !! i = Some p -> items centroids !! i = Some c ->
     within_epsilon (sq_displacement p c) = true \/
     F32.is_nan (sq_displacement p c) = true).
Proof.
  split; [reflexivity|]. split; [|split; [|split; [|split]]].
  - intros Hne. destruct (converged previus centroids) eqn:E; [|reflexivity].
    apply converged_true in E. destruct E as [E _]. contradiction.
  - intros _ (i & p & c & Hp & Hc & Hex).
    destruct (converged previus centroids) eqn:E; [|reflexivity].
    apply converged_true in E. destruct E as [_ E].
    rewrite (E i p c Hp Hc) in Hex. discriminate.
  - apply converged_true.
  - intros d Hd. unfold exceeds_epsilon. split.
    + now apply not_ltb_leb.
    + apply leb_not_ltb.
  - rewrite converged_true. split; intros [Hc Hall]; (split; [exact Hc|]);
      intros i p c Hp Hq; apply exceeds_epsilon_false; eapply Hall; eauto.
Qed.

Lemma converged_spec_witness :
  converged (mkda [vec 1 1] 10) (mkda [vec 1 1; vec 2 2] 10) = false /\
  converged lonely_centroids (mkda [vec 1 1; vec 100 100] 10) = false /\
  (forall i p c, items lonely_centroids !! i = Some p ->
     items lonely_centroids !! i = Some c ->
     exceeds_epsilon (sq_displacement p c) = false).
Proof.
  split; [|split].
  - apply (proj1 (proj2 (converged_spec (mkda [vec 1 1] 10)
                                          (mkda [vec 1 1; vec 2 2] 10)))).
    unfold count. simpl. lia.
  - apply (proj1 (proj2 (proj2 (converged_spec lonely_centroids
                                   (mkda [vec 1 1; vec 100 100] 10))))).
    + reflexivity.
    + exists O, (Vector2.mk half half), (vec 1 1).
      split; [reflexivity|]. split; reflexivity.
  - apply (proj1 (proj2 (proj2 (proj2 (converged_spec lonely_centroids
                                          lonely_centroids))))).
    reflexivity.
Defined.

(** C3, as stated, fails: [converged] returns true on [lonely_centroids]
    and [lonely_after], although the squared displacement of their second
    centroid, which is not a number, is not within EPSILON. *)
Lemma converged_beyond_epsilon :
  converged lonely_centroids lonely_after = true /\
  items lonely_centroids !! 1%nat = Some (vec 100 100) /\
  items lonely_after !! 1%nat = Some nan_position /\
  within_epsilon (sq_displacement (vec 100 100) nan_position) = false /\
  ~ (forall i p c,
       items lonely_centroids !! i = Some p -> items lonely_after !! i = Some c ->
       within_epsilon (sq_displacement p c) = true).
Proof.
  split; [reflexivity|]. split; [reflexivity|]. split; [reflexivity|].
  split; [reflexivity|].
  intros H. specialize (H 1%nat (vec 100 100) nan_position eq_refl eq_refl).
  discriminate H.
Qed.

(** ** Empty clusters *)

Lemma sq_displacement_nan (p : Vector2.t) :
  sq_displacement p nan_position = F32.nan.
Proof.
  unfold sq_displacement, nan_position. simpl.
  destruct (Vector2.x p), (Vector2.y p); reflexivity.
Qed.

Lemma exceeds_epsilon_nan : exceeds_epsilon F32.nan = false.
Proof. reflexivity. Qed.

(** C5, as amended.  A centroid without any sample is moved by [update_step]
    to a position that is not a number, the quotient of zero by zero.  The
    comparison of [converged] is false at such a centroid, whatever the
    previous position: it never makes [converged] answer false, and
    [converged] answers true as soon as the counts agree and no other
    centroid has moved by more than EPSILON. *)
Theorem empty_cluster_nan :
  (forall (c c' : Centroids) (s : Samples) (lines : list string) (k : Z),
     update_step true c s = Done (c', lines) ->
     0 <= k < count c ->
     members k (items s) = [] ->
     items c' !! Z.to_nat k = Some nan_position) /\
  (forall p : Vector2.t,
     exceeds_epsilon (sq_displacement p nan_position) = false) /\
  (forall previus centroids : Centroids,
     count previus = count centroids ->
     (forall i p c, items previus !! i = Some p -> items centroids !! i = Some c ->
        c = nan_position \/ exceeds_epsilon (sq_displacement p c) = false) ->
     converged previus centroids = true).
Proof.
  split; [|split].
  - intros c c' s lines k H Hk Hempty.
    apply update_step_cells in H. destruct H as (_ & _ & _ & Hcells).
    unfold count in Hk. rewrite Hcells by lia. rewrite Z2Nat.id by lia.
    unfold cluster_mean. rewrite Hempty. reflexivity.
  - intros p. rewrite sq_displacement_nan. apply exceeds_epsilon_nan.
  - intros previus centroids Hcount Hall. apply converged_true.
    split; [exact Hcount|]. intros i p c Hp Hc.
    destruct (Hall i p c Hp Hc) as [-> | Hin]; [|exact Hin].
    rewrite sq_displacement_nan. apply exceeds_epsilon_nan.
Qed.

Lemma empty_cluster_nan_witness :
  items lonely_after !! Z.to_nat 1 = Some nan_position /\
  converged lonely_centroids lonely_after = true.
Proof.
  split.
  - apply (proj1 empty_cluster_nan lonely_centroids lonely_after
             (assign_step lonely_centroids fresh_samples) [] 1).
    + reflexivity.
    + unfold count. simpl. lia.
    + reflexivity.
  - apply (proj2 (proj2 empty_cluster_nan) lonely_centroids lonely_after).
    + reflexivity.
    + intros [|[|i]] p c Hp Hc; simpl in Hp, Hc; try discriminate.
      * injection Hp as <-. injection Hc as <-. right. reflexivity.
      * injection Hc as <-. left. reflexivity.
Defined.

(** C5, as stated, fails: the second centroid of [lonely_centroids] gets no
    sample, [update_step] leaves it not a number, and [converged] answers
    true on the snapshot taken before and the centroids after. *)
Lemma converged_despite_nan :
  members 1 (items (assign_step lonely_centroids fresh_samples)) = [] /\
  update_step true lonely_centroids (assign_step lonely_centroids fresh_samples)
    = Done (lonely_after, []) /\
  items lonely_after !! 1%nat = Some nan_position /\
  converged lonely_centroids lonely_after = true.
Proof. split; [|split; [|split]]; reflexivity. Qed.

(** ** [run_kmeans] *)

Section Loop.

Variable mallocs : nat -> bool.

Lemma kmeans_loop_trace (fuel : nat) :
  forall it previous w trace w' trace',
    kmeans_loop fuel mallocs it previous w trace = Done (w', trace') ->
    time_between_updates w' = time_between_updates w /\
    exists n, trace' = trace ++ run_events n.
Proof.
  induction fuel as [|fuel IH]; intros it previous w trace w' trace' H;
    simpl in H; [discriminate|].
  destruct (converged previous (centroids w)).
  - injection H as <- <-. split; [reflexivity|]. now exists O.
  - destruct (update_step (mallocs (S it)) (centroids w)
                (assign_step (centroids w) (samples w)))
      as [[c' lines]| | |]; try discriminate.
    simpl in H. apply IH in H. destruct H as [Htime [n ->]].
    split; [exact Htime|]. exists (S n).
    unfold run_events. simpl. now rewrite <- !app_assoc.
Qed.

(** More fuel does not change the result of a run that has finished. *)
Lemma kmeans_loop_more_fuel (fuel extra : nat) :
  forall it previous w trace r,
    kmeans_loop fuel mallocs it previous w trace = Done r ->
    kmeans_loop (fuel + extra) mallocs it previous w trace = Done r.
Proof.
  induction fuel as [|fuel IH]; intros it previous w trace r H;
    simpl in H; [discriminate|]. simpl.
  destruct (converged previous (centroids w)); [exact H|].
  destruct (update_step (mallocs (S it)) (centroids w)
              (assign_step (centroids w) (samples w)))
    as [[c' lines]| | |]; try discriminate.
  simpl in *. now apply IH.
Qed.

(** A run that starts on a snapshot that does not pass the test goes
    through one turn of the loop at least. *)
Lemma kmeans_loop_first_turn (fuel it : nat) (previous : Centroids)
    (w w' : session) (trace trace' : list event) :
  converged previous (centroids w) = false ->
  kmeans_loop fuel mallocs it previous w trace = Done (w', trace') ->
  exists n, trace' = trace ++ run_events (S n).
Proof.
  intros Hnot H. destruct fuel as [|fuel]; simpl in H; [discriminate|].
  rewrite Hnot in H.
  destruct (update_step (mallocs (S it)) (centroids w)
              (assign_step (centroids w) (samples w)))
    as [[c' lines]| | |]; try discriminate.
  simpl in H. apply kmeans_loop_trace in H. destruct H as [_ [n ->]].
  exists n. unfold run_events. simpl. now rewrite <- !app_assoc.
Qed.

End Loop.

(** The loop computes a convergence run, and every convergence run is
    computed by the loop once it has fuel for it. *)
Lemma kmeans_loop_sound (mallocs : nat -> bool) (fuel : nat) :
  forall it previous w trace w' trace',
    kmeans_loop fuel mallocs it previous w trace = Done (w', trace') ->
    exists n, loop_run mallocs it previous w n w' /\ trace' = trace ++ run_events n.
Proof.
  induction fuel as [|fuel IH]; intros it previous w trace w' trace' H;
    simpl in H; [discriminate|].
  destruct (converged previous (centroids w)) eqn:Hconv.
  - injection H as <- <-. exists O. split; [now constructor | reflexivity].
  - destruct (update_step (mallocs (S it)) (centroids w)
                (assign_step (centroids w) (samples w)))
      as [[c' lines]| | |] eqn:Hup; try discriminate.
    simpl in H. apply IH in H. destruct H as (n & Hrun & ->).
    exists (S n). split.
    + eapply loop_run_turn; [exact Hconv | | exact Hrun].
      unfold turn. rewrite Hup. reflexivity.
    + unfold run_events. simpl. now rewrite <- !app_assoc.
Qed.




(** C4: the loop tests before its first turn.  On the session
    [due_session], with the cells of the uninitialised [previous] holding
    one centroid equal to the current one, [run_kmeans] leaves after that
    single test: no snapshot, no [assign_step], no [update_step], and the
    samples still unassigned. *)
Theorem run_kmeans_stale_previous :
  run_kmeans 1 (fun _ => true) [vec 1 1] due_session
  = Done (mksession (mkda [vec 1 1] 10) fresh_samples F32.zero [],
          [Test true]).
Proof. reflexivity. Qed.

(** * Further properties *)

(** ** Growth of a dynamic array *)

(** X1.  On an array that holds no more cells than its capacity, with a
    [realloc] that succeeds and a count below half of [INT_MAX], [da_append]
    stores the item after the last cell; the capacity is kept while there is
    room, becomes 10 from 0 and doubles otherwise; and the new array again
    holds no more cells than its capacity. *)
Theorem da_append_growth {T : Type} (realloc_ok : Z -> bool) (a : da T) (item : T) :
  (forall n, realloc_ok n = true) ->
  well_formed a ->
  2 * count a <= INT_MAX ->
  da_append realloc_ok a item
    = Done (mkda (items a ++ [item])
              (if count a <? capacity a then capacity a
               else if capacity a =? 0 then INITIAL_CAPACITY
               else capacity a * 2)) /\
  count a + 1 <=
    (if count a <? capacity a then capacity a
     else if capacity a =? 0 then INITIAL_CAPACITY
     else capacity a * 2).
Proof.
  unfold well_formed, da_append, INT_MAX, INITIAL_CAPACITY.
  intros Hok Hwf Hmax. rewrite Hok. simpl negb. cbv iota zeta.
  assert (0 <= count a) as Hnn by (unfold count; lia).
  destruct (count a <? capacity a) eqn:Hroom.
  - apply Z.ltb_lt in Hroom.
    destruct (capacity a <=? count a) eqn:Hfull; [apply Z.leb_le in Hfull; lia|].
    split; [reflexivity | lia].
  - apply Z.ltb_ge in Hroom.
    destruct (capacity a <=? count a) eqn:Hfull; [|apply Z.leb_gt in Hfull; lia].
    destruct (capacity a =? 0) eqn:Hzero; simpl.
    + apply Z.eqb_eq in Hzero.
      destruct (10 <=? count a) eqn:Hten; [apply Z.leb_le in Hten; lia|].
      split; [reflexivity | lia].
    + apply Z.eqb_neq in Hzero.
      destruct (2147483647 <? capacity a * 2) eqn:Hovf; [apply Z.ltb_lt in Hovf; lia|].
      destruct (capacity a * 2 <=? count a) eqn:Hsmall;
        [apply Z.leb_le in Hsmall; lia|].
      split; [reflexivity | lia].
Qed.

Lemma da_append_growth_witness :
  da_append (fun _ => true) (mkda [1; 2] 2) 3 = Done (mkda [1; 2; 3] 4) /\
  3 <= 4.
Proof.
  apply (da_append_growth (fun _ => true) (mkda [1; 2] 2) 3).
  - reflexivity.
  - unfold well_formed, count. simpl. lia.
  - unfold count, INT_MAX. simpl. lia.
Defined.

(** X2.  [da_append] calls [realloc] only on a full array: while there is
    room the item is stored whatever the allocator would answer; on a full
    array a failed [realloc] trips the [assert] and the process is aborted,
    and a capacity above half of [INT_MAX] overflows the [int]. *)
Theorem da_append_failures {T : Type} (realloc_ok : Z -> bool) (a : da T) (item : T) :
  (count a < capacity a ->
   da_append realloc_ok a item = Done (mkda (items a ++ [item]) (capacity a))) /\
  (capacity a <= count a ->
   0 <= capacity a -> 2 * capacity a <= INT_MAX ->
   realloc_ok (if capacity a =? 0 then INITIAL_CAPACITY else capacity a * 2) = false ->
   da_append realloc_ok a item = Aborted) /\
  (capacity a <= count a ->
   INT_MAX < 2 * capacity a ->
   da_append realloc_ok a item = Undefined).
Proof.
  unfold da_append, INT_MAX, INITIAL_CAPACITY. split; [|split].
  - intros Hroom.
    destruct (capacity a <=? count a) eqn:Hfull; [apply Z.leb_le in Hfull; lia|].
    reflexivity.
  - intros Hfull Hpos Hmax Hfail.
    destruct (capacity a <=? count a) eqn:E; [|apply Z.leb_gt in E; lia].
    destruct (2147483647 <? capacity a * 2) eqn:Hovf; [apply Z.ltb_lt in Hovf; lia|].
    rewrite andb_false_r. cbv zeta. rewrite Hfail. reflexivity.
  - intros Hfull Hovf.
    destruct (capacity a <=? count a) eqn:E; [|apply Z.leb_gt in E; lia].
    destruct (capacity a =? 0) eqn:Hzero; [apply Z.eqb_eq in Hzero; lia|].
    destruct (2147483647 <? capacity a * 2) eqn:Hlt; [reflexivity|].
    apply Z.ltb_ge in Hlt. lia.
Qed.

Lemma da_append_failures_witness :
  da_append (fun _ => false) (mkda [1] 2) 3 = Done (mkda [1; 3] 2) /\
  da_append (fun _ => false) (mkda [1; 2] 2) 3 = Aborted /\
  da_append (fun _ => true) (mkda [1; 2] 2000000000) 3
    = Done (mkda [1; 2; 3] 2000000000).
Proof.
  split; [|split].
  - apply (proj1 (da_append_failures (fun _ => false) (mkda [1] 2) 3)).
    unfold count. simpl. lia.
  - apply (proj1 (proj2 (da_append_failures (fun _ => false) (mkda [1; 2] 2) 3)));
      unfold count, INT_MAX; simpl; (lia || reflexivity).
  - apply (proj1 (da_append_failures (fun _ => true) (mkda [1; 2] 2000000000) 3)).
    unfold count. simpl. lia.
Defined.

(** ** [create_centroids] and the set-up of [main] *)

Section InitializerFacts.

Variable RAND_MAX : Z.
Variable rand : nat -> Z.
Variable realloc_ok : Z -> bool.

Lemma generate_samples_done_wf (center : Vector2.t) (radius : spec_float)
    (num_samples : nat) :
  (forall n, realloc_ok n = true) ->
  forall (s : Samples) (seed : nat),
    well_formed s ->
    2 * (count s + Z.of_nat num_samples) <= INT_MAX ->
    exists s' seed',
      generate_samples RAND_MAX rand realloc_ok s center num_samples radius seed
        = Done (s', seed') /\
      well_formed s' /\
      count s' = count s + Z.of_nat num_samples /\
      (Forall (fun sample => Sample.cluster sample = UNASSIGNED) (items s) ->
       Forall (fun sample => Sample.cluster sample = UNASSIGNED) (items s')).
Proof.
  intros Hok s seed Hwf Hmax.
  assert (exists s' seed', generate_samples RAND_MAX rand realloc_ok s center
                             num_samples radius seed = Done (s', seed')
                           /\ well_formed s') as (s' & seed' & H & Hwf').
  { revert s seed Hwf Hmax.
    induction num_samples as [|n IH]; intros s seed Hwf Hmax; simpl.
    - eauto.
    - match goal with
      | |- context [da_append _ _ ?it] =>
          destruct (da_append_done realloc_ok s it Hok Hwf) as (s1 & Happ & Hwf1);
            [lia|]; rewrite Happ; pose proof (da_append_items _ _ _ _ Happ) as Hitems
      end.
      simpl. apply IH; [exact Hwf1|].
      unfold count in *. rewrite Hitems, length_app. simpl. lia. }
  exists s', seed'. split; [exact H|]. split; [exact Hwf'|].
  destruct (generate_samples_appends _ _ _ _ _ _ _ _ _ _ H) as (new & Hitems & Hlen & Hall).
  unfold count. rewrite Hitems, length_app. split; [lia|].
  intros Hold. apply Forall_app. split; assumption.
Qed.

Lemma create_centroids_loop_appends (xs ys : float) (n : nat) :
  forall (c c' : Centroids) (i : Z) (seed seed' : nat),
    create_centroids_loop RAND_MAX rand realloc_ok xs ys c n i seed = Done (c', seed') ->
    seed' = (seed + 2 * n)%nat /\
    exists new, items c' = items c ++ new /\ length new = n.
Proof.
  induction n as [|n IH]; intros c c' i seed seed' H; simpl in H.
  - injection H as <- <-. split; [lia|]. exists []. now rewrite app_nil_r.
  - match type of H with
    | context [da_append _ _ ?it] =>
        destruct (da_append realloc_ok c it) as [c1| | |] eqn:Happ; try discriminate
    end.
    apply da_append_items in Happ. simpl in H.
    destruct (IH _ _ _ _ _ H) as (Hseed & new & Hitems & Hlen).
    split; [lia|]. eexists (_ :: new). rewrite Hitems, Happ, <- app_assoc. simpl.
    split; [reflexivity | now rewrite Hlen].
Qed.

Lemma create_centroids_loop_done (xs ys : float) (n : nat) :
  (forall m, realloc_ok m = true) ->
  forall (c : Centroids) (i : Z) (seed : nat),
    well_formed c ->
    2 * (count c + Z.of_nat n) <= INT_MAX ->
    exists c' seed',
      create_centroids_loop RAND_MAX rand realloc_ok xs ys c n i seed = Done (c', seed') /\
      well_formed c'.
Proof.
  intros Hok. induction n as [|n IH]; intros c i seed Hwf Hmax; simpl.
  - eauto.
  - match goal with
    | |- context [da_append _ _ ?it] =>
        destruct (da_append_done realloc_ok c it Hok Hwf) as (c1 & Happ & Hwf1);
          [lia|]; rewrite Happ; pose proof (da_append_items _ _ _ _ Happ) as Hitems
    end.
    simpl. apply IH; [exact Hwf1|].
    unfold count in *. rewrite Hitems, length_app. simpl. lia.
Qed.

Lemma create_centroids_done (c : Centroids) (k : Z) (seed : nat) :
  0 < k ->
  (forall n, realloc_ok n = true) ->
  well_formed c ->
  2 * (count c + k) <= INT_MAX ->
  exists c' seed',
    create_centroids RAND_MAX rand realloc_ok c k seed = Done (c', seed') /\
    well_formed c' /\ count c' = count c + k.
Proof.
  intros Hpos Hok Hwf Hmax. unfold create_centroids.
  destruct (k =? 0) eqn:E; [apply Z.eqb_eq in E; lia|].
  destruct (create_centroids_loop_done
              (F32.of_int (Z.quot WINDOW_WIDTH k)) (F32.of_int (Z.quot WINDOW_HEIGHT k))
              (Z.to_nat k) Hok c 0 seed Hwf)
    as (c' & seed' & H & Hwf'); [lia|].
  exists c', seed'. split; [exact H|]. split; [exact Hwf'|].
  apply create_centroids_loop_appends in H.
  destruct H as (_ & new & Hitems & Hlen).
  unfold count. rewrite Hitems, length_app. lia.
Qed.

(** X3.  [create_centroids] divides the window by [k]: for [k = 0] the
    behaviour is undefined, for a negative [k] nothing is appended, and for
    a positive [k] a call that returns has appended exactly [k] centroids
    after the ones present, drawing two random numbers for each; it does
    return when every [realloc] succeeds and the counts stay within [int]. *)
Theorem create_centroids_spec (c : Centroids) (k : Z) (seed : nat) :
  (k = 0 -> create_centroids RAND_MAX rand realloc_ok c k seed = Undefined) /\
  (k < 0 -> create_centroids RAND_MAX rand realloc_ok c k seed = Done (c, seed)) /\
  (0 < k ->
   forall c' seed',
     create_centroids RAND_MAX rand realloc_ok c k seed = Done (c', seed') ->
     count c' = count c + k /\
     seed' = (seed + 2 * Z.to_nat k)%nat /\
     forall i centroid, items c !! i = Some centroid -> items c' !! i = Some centroid) /\
  (0 < k ->
   (forall n, realloc_ok n = true) ->
   well_formed c ->
   2 * (count c + k) <= INT_MAX ->
   exists c' seed',
     create_centroids RAND_MAX rand realloc_ok c k seed = Done (c', seed') /\
     well_formed c').
Proof.
  unfold create_centroids. split; [|split; [|split]].
  - intros ->. reflexivity.
  - intros Hneg. destruct (k =? 0) eqn:E; [apply Z.eqb_eq in E; lia|].
    destruct k; try lia. reflexivity.
  - intros Hpos c' seed' H. destruct (k =? 0) eqn:E; [discriminate|].
    apply create_centroids_loop_appends in H.
    destruct H as (Hseed & new & Hitems & Hlen).
    unfold count. rewrite Hitems, length_app. split; [lia|]. split; [exact Hseed|].
    intros i centroid Hi. now apply lookup_app_l_Some.
  - intros Hpos Hok Hwf Hmax.
    destruct (create_centroids_done c k seed Hpos Hok Hwf Hmax)
      as (c' & seed' & H & Hwf' & _).
    unfold create_centroids in H. eauto.
Qed.

(** X4.  With an allocator that never fails, the set-up of [main] returns
    100 samples, all of them unassigned, and 3 centroids, whatever [rand]
    gives; both arrays hold no more cells than their capacity. *)
Theorem setup_spec :
  (forall n, realloc_ok n = true) ->
  exists samples centroids seed,
    setup RAND_MAX rand realloc_ok = Done (samples, centroids, seed) /\
    count samples = 100 /\
    Forall (fun sample => Sample.cluster sample = UNASSIGNED) (items samples) /\
    count centroids = 3 /\
    well_formed samples /\ well_formed centroids.
Proof.
  intros Hok. unfold setup.
  assert (well_formed (mkda (@nil Sample.t) 0)) as Hwf0
    by (unfold well_formed, count; simpl; lia).
  match goal with
  | |- context [generate_samples _ _ _ ?s ?ce ?n ?r ?sd] =>
      destruct (generate_samples_done_wf ce r n Hok s sd Hwf0)
        as (s1 & seed1 & -> & Hwf1 & Hc1 & Hu1);
        [unfold count, INT_MAX; simpl; lia|]
  end.
  cbn [mbind outcome_bind].
  match goal with
  | |- context [generate_samples _ _ _ ?s ?ce ?n ?r ?sd] =>
      destruct (generate_samples_done_wf ce r n Hok s sd Hwf1)
        as (s2 & seed2 & -> & Hwf2 & Hc2 & Hu2);
        [rewrite Hc1; unfold count, INT_MAX; simpl; lia|]
  end.
  cbn [mbind outcome_bind].
  match goal with
  | |- context [generate_samples _ _ _ ?s ?ce ?n ?r ?sd] =>
      destruct (generate_samples_done_wf ce r n Hok s sd Hwf2)
        as (s3 & seed3 & -> & Hwf3 & Hc3 & Hu3);
        [rewrite Hc2, Hc1; unfold count, INT_MAX; simpl; lia|]
  end.
  cbn [mbind outcome_bind].
  match goal with
  | |- context [generate_samples _ _ _ ?s ?ce ?n ?r ?sd] =>
      destruct (generate_samples_done_wf ce r n Hok s sd Hwf3)
        as (s4 & seed4 & -> & Hwf4 & Hc4 & Hu4);
        [rewrite Hc3, Hc2, Hc1; unfold count, INT_MAX; simpl; lia|]
  end.
  cbn [mbind outcome_bind].
  assert (well_formed (mkda (@nil Vector2.t) 0)) as Hwfc
    by (unfold well_formed, count; simpl; lia).
  destruct (create_centroids_done (mkda [] 0) 3 seed4 ltac:(lia) Hok Hwfc)
    as (c' & seed' & Hcreate & Hwfc' & Hcount);
    [unfold count, INT_MAX; simpl; lia|].
  rewrite Hcreate. cbn [mbind outcome_bind].
  exists s4, c', seed'. split; [reflexivity|].
  split; [rewrite Hc4, Hc3, Hc2, Hc1; unfold count; simpl; lia|].
  split; [|split; [|split; assumption]].
  - apply Hu4, Hu3, Hu2, Hu1. constructor.
  - rewrite Hcount. unfold count. simpl. lia.
Qed.

End InitializerFacts.

Lemma create_centroids_spec_witness :
  create_centroids 4 (fun n => Z.of_nat n) (fun _ => true) (mkda [vec 1 1] 10) 0 2
    = Undefined /\
  create_centroids 4 (fun n => Z.of_nat n) (fun _ => true) (mkda [vec 1 1] 10) (-2) 2
    = Done (mkda [vec 1 1] 10, 2%nat) /\
  exists c' seed',
    create_centroids 4 (fun n => Z.of_nat n) (fun _ => true) (mkda [vec 1 1] 10) 2 2
      = Done (c', seed') /\
    well_formed c'.
Proof.
  split; [|split].
  - apply (proj1 (create_centroids_spec 4 (fun n => Z.of_nat n) (fun _ => true)
                    (mkda [vec 1 1] 10) 0 2)).
    reflexivity.
  - apply (proj1 (proj2 (create_centroids_spec 4 (fun n => Z.of_nat n)
                           (fun _ => true) (mkda [vec 1 1] 10) (-2) 2))).
    lia.
  - apply (proj2 (proj2 (proj2 (create_centroids_spec 4 (fun n => Z.of_nat n)
                                  (fun _ => true) (mkda [vec 1 1] 10) 2 2)))).
    + lia.
    + reflexivity.
    + unfold well_formed, count. simpl. lia.
    + unfold count, INT_MAX. simpl. lia.
Defined.

Lemma setup_spec_witness :
  exists samples centroids seed,
    setup 2147483647 (fun n => Z.of_nat n) (fun _ => true)
      = Done (samples, centroids, seed) /\
    count samples = 100 /\
    Forall (fun sample => Sample.cluster sample = UNASSIGNED) (items samples) /\
    count centroids = 3 /\
    well_formed samples /\ well_formed centroids.
Proof.
  apply (setup_spec 2147483647 (fun n => Z.of_nat n) (fun _ => true)).
  reflexivity.
Defined.


(** ** More on [assign_step] *)

Lemma assign_scan_position (sample : Sample.t) (cl0 : Z) (cs : list Vector2.t) :
  forall k best cl,
    assign_scan (Sample.mk (Sample.x sample) (Sample.y sample) cl0) cs k best cl
    = assign_scan sample cs k best cl.
Proof.
  induction cs as [|c cs IH]; intros k best cl; [reflexivity|].
  simpl. unfold distance at 1 3. simpl. fold (distance sample c).
  now rewrite !IH.
Qed.

Lemma assign_scan_again (sample : Sample.t) (cs : list Vector2.t) :
  forall k best cl,
    assign_scan sample cs k best (snd (assign_scan sample cs k best cl))
    = assign_scan sample cs k best cl.
Proof.
  induction cs as [|c cs IH]; intros k best cl; simpl.
  - reflexivity.
  - destruct (distance sample c <? best)%f32; [reflexivity | apply IH].
Qed.

(** X5.  [assign_step] only writes cluster fields: the samples keep their
    number, their order, their positions and the capacity of their array. *)
Theorem assign_step_frame (c : Centroids) (s : Samples) :
  count (assign_step c s) = count s /\
  capacity (assign_step c s) = capacity s /\
  map position (items (assign_step c s)) = map position (items s).
Proof.
  unfold assign_step, count. simpl. split; [now rewrite length_map|].
  split; [reflexivity|]. rewrite map_map. reflexivity.
Qed.

(** X6.  [assign_step] is idempotent: a second pass over the same centroids
    changes nothing. *)
Theorem assign_step_idempotent (c : Centroids) (s : Samples) :
  assign_step c (assign_step c s) = assign_step c s.
Proof.
  unfold assign_step. simpl. f_equal. rewrite map_map. apply map_ext.
  intros sample. unfold assign_sample. simpl.
  now rewrite assign_scan_position, assign_scan_again.
Qed.

(** X7.  Without any centroid [assign_step] leaves every sample as it is. *)
Theorem assign_step_no_centroid (cap : Z) (s : Samples) :
  assign_step (mkda [] cap) s = s.
Proof.
  destruct s as [ss caps]. unfold assign_step. simpl. f_equal.
  induction ss as [|[x y cl] ss IH]; [reflexivity|].
  simpl. now rewrite IH.
Qed.

(** ** More on [update_step] and [converged] *)

(** X8.  [update_step] keeps the number of centroids and the capacity of
    their array and writes nothing to [stderr] when the allocation succeeds;
    the positions it leaves depend on the samples and on the number of
    centroids only, not on the positions the centroids had. *)
Theorem update_step_shape (c : Centroids) (s : Samples) :
  (forall c' lines,
     update_step true c s = Done (c', lines) ->
     count c' = count c /\ capacity c' = capacity c /\ lines = []) /\
  (forall c2 : Centroids,
     count c2 = count c -> capacity c2 = capacity c ->
     update_step true c2 s = update_step true c s).
Proof.
  split.
  - intros c' lines H. apply update_step_cells in H. tauto.
  - intros c2 Hcount Hcap. unfold update_step. simpl.
    unfold count in Hcount. apply Nat2Z.inj in Hcount.
    now rewrite Hcount, Hcap.
Qed.

Lemma update_step_shape_witness :
  (count (mkda [vec 1 1; nan_position] 10) = count (mkda [vec 7 7; vec 3 3] 10) /\
   capacity (mkda [vec 1 1; nan_position] 10) = capacity (mkda [vec 7 7; vec 3 3] 10) /\
   @nil string = []) /\
  update_step true (mkda [vec 0 0; vec 9 9] 10) square
  = update_step true (mkda [vec 7 7; vec 3 3] 10) square.
Proof.
  split.
  - apply (proj1 (update_step_shape (mkda [vec 7 7; vec 3 3] 10) square)).
    reflexivity.
  - apply (proj2 (update_step_shape (mkda [vec 7 7; vec 3 3] 10) square));
      reflexivity.
Defined.

Lemma sub_diag (a : float) : (a - a)%f32 = F32.zero \/ (a - a)%f32 = F32.nan.
Proof.
  destruct a as [[]|[]| |s m e]; simpl; auto.
  left. unfold F32.sub, SFsub. rewrite Z.sub_diag. reflexivity.
Qed.

Lemma sq_displacement_diag (p : Vector2.t) :
  exceeds_epsilon (sq_displacement p p) = false.
Proof.
  unfold sq_displacement.
  destruct (sub_diag (Vector2.x p)) as [-> | ->],
           (sub_diag (Vector2.y p)) as [-> | ->]; reflexivity.
Qed.

Lemma converged_scan_diag (cs : list Vector2.t) : converged_scan cs cs = true.
Proof.
  induction cs as [|c cs IH]; [reflexivity|].
  simpl. now rewrite sq_displacement_diag.
Qed.

(** X9.  A centroid set has always converged towards itself, whatever its
    coordinates, infinite or not a number included; only the cells count,
    not the capacity. *)
Theorem converged_same_items (previus centroids : Centroids) :
  items previus = items centroids -> converged previus centroids = true.
Proof.
  intros H. unfold converged, count. rewrite H, Z.eqb_refl. simpl.
  apply converged_scan_diag.
Qed.

Lemma converged_same_items_witness :
  converged (mkda [vec 1 1; nan_position] 4) (mkda [vec 1 1; nan_position] 10)
  = true.
Proof.
  apply (converged_same_items (mkda [vec 1 1; nan_position] 4)
           (mkda [vec 1 1; nan_position] 10)).
  reflexivity.
Defined.


Lemma binary_normalize_opp (z e : Z) :
  opposite_or_zero (binary_normalize F32.prec F32.emax z e false)
                   (binary_normalize F32.prec F32.emax (- z) e false).
Proof.
  destruct z as [|p|p]; simpl.
  - right. split; reflexivity.
  - left. unfold binary_round. destruct (shl_align _ _ _) as [mz ez].
    unfold binary_round_aux. destruct (shr_fexp _ _ _ _ _) as [mrs' e'].
    destruct (shr_fexp _ _ _ _ _) as [mrs'' e''].
    destruct (shr_m mrs''); [reflexivity | | reflexivity].
    destruct (_ <=? _); reflexivity.
  - left. unfold binary_round. destruct (shl_align _ _ _) as [mz ez].
    unfold binary_round_aux. destruct (shr_fexp _ _ _ _ _) as [mrs' e'].
    destruct (shr_fexp _ _ _ _ _) as [mrs'' e''].
    destruct (shr_m mrs''); [reflexivity | | reflexivity].
    destruct (_ <=? _); reflexivity.
Qed.

Lemma sub_swap (a b : float) : opposite_or_zero (a - b)%f32 (b - a)%f32.
Proof.
  destruct a as [[]|[]| |[] ma ea], b as [[]|[]| |[] mb eb];
    try (left; reflexivity); try (right; split; reflexivity).
  all: unfold F32.sub, SFsub; rewrite (Z.min_comm eb ea);
    match goal with
    | |- opposite_or_zero (binary_normalize _ _ (?X - ?Y) _ _) _ =>
        replace (Y - X) with (- (X - Y)) by lia
    end;
    apply binary_normalize_opp.
Qed.

Lemma mul_opposite (u v : float) :
  opposite_or_zero u v -> (u * u)%f32 = (v * v)%f32.
Proof.
  intros [-> | [-> ->]]; [|reflexivity].
  destruct u as [[]|[]| |[] m e]; reflexivity.
Qed.

Lemma sq_displacement_swap (p c : Vector2.t) :
  sq_displacement p c = sq_displacement c p.
Proof.
  unfold sq_displacement. cbv zeta.
  rewrite (mul_opposite _ _ (sub_swap (Vector2.x p) (Vector2.x c))).
  rewrite (mul_opposite _ _ (sub_swap (Vector2.y p) (Vector2.y c))).
  reflexivity.
Qed.

(** X10.  [converged] is symmetric: it answers the same with the snapshot
    and the current centroids exchanged. *)
Theorem converged_symmetric (previus centroids : Centroids) :
  converged previus centroids = converged centroids previus.
Proof.
  unfold converged. rewrite (Z.eqb_sym (count previus)).
  destruct (count centroids =? count previus); [|reflexivity]. simpl.
  generalize (items centroids). induction (items previus) as [|p ps IH];
    intros [|c cs]; simpl; try reflexivity.
  rewrite (sq_displacement_swap p c), IH. reflexivity.
Qed.

(** ** More on [run_kmeans] *)

Lemma converged_copy (cs : list Vector2.t) (cap1 cap2 : Z) :
  converged (mkda cs cap1) (mkda cs cap2) = true.
Proof.
  unfold converged, count. simpl. rewrite Z.eqb_refl. simpl.
  apply converged_scan_diag.
Qed.

Section LoopFacts.

Variable mallocs : nat -> bool.

(** One turn with a failed allocation, then the test on the unchanged
    centroids. *)
Lemma kmeans_loop_failed_turn (fuel it : nat) (previous : Centroids) (w : session)
    (trace : list event) :
  converged previous (centroids w) = false ->
  mallocs (S it) = false ->
  kmeans_loop (S (S fuel)) mallocs it previous w trace
  = Done (mksession (centroids w) (assign_step (centroids w) (samples w))
            (time_between_updates w) (stderr w ++ [update_step_error]),
          trace ++ cycle_events ++ [Test true]).
Proof.
  intros Hnot Hfail. simpl. rewrite Hnot, Hfail. simpl.
  destruct (centroids w) as [cs cap] eqn:Hc. simpl.
  rewrite converged_copy. now rewrite <- app_assoc.
Qed.

Lemma kmeans_loop_frame (fuel : nat) :
  forall it previous w trace w' trace',
    kmeans_loop fuel mallocs it previous w trace = Done (w', trace') ->
    count (samples w') = count (samples w) /\
    capacity (samples w') = capacity (samples w) /\
    map position (items (samples w')) = map position (items (samples w)) /\
    count (centroids w') = count (centroids w) /\
    capacity (centroids w') = capacity (centroids w) /\
    (stderr w' = stderr w \/ stderr w' = stderr w ++ [update_step_error]).
Proof.
  induction fuel as [|fuel IH]; intros it previous w trace w' trace' H;
    [discriminate|].
  destruct (converged previous (centroids w)) eqn:Hconv.
  - simpl in H. rewrite Hconv in H. injection H as <- <-.
    repeat split; try reflexivity. now left.
  - assert (count (assign_step (centroids w) (samples w)) = count (samples w) /\
            map position (items (assign_step (centroids w) (samples w)))
            = map position (items (samples w))) as [Hc Hpos].
    { unfold assign_step, count. simpl. rewrite length_map, map_map. now split. }
    destruct (mallocs (S it)) eqn:Hm.
    + simpl in H. rewrite Hconv, Hm in H.
      destruct (update_step true (centroids w)
                  (assign_step (centroids w) (samples w)))
        as [[c' lines]| | |] eqn:Hup; try discriminate.
      apply update_step_cells in Hup. destruct Hup as (-> & Hcap' & Hcount' & _).
      simpl in H. apply IH in H.
      cbn [samples centroids stderr time_between_updates] in H.
      destruct H as (H1 & H2 & H3 & H4 & H5 & H6).
      rewrite H1, H2, H3, H4, H5, Hc, Hpos, Hcount', Hcap'.
      repeat split; try reflexivity.
      rewrite app_nil_r in H6. exact H6.
    + destruct fuel as [|fuel].
      { simpl in H. rewrite Hconv, Hm in H. discriminate. }
      rewrite (kmeans_loop_failed_turn _ _ _ _ _ Hconv Hm) in H.
      injection H as <- <-. simpl.
      repeat split; try assumption; try reflexivity. now right.
Qed.

End LoopFacts.

(** X11.  When the allocation inside [update_step] fails during a turn of
    the loop, the centroids stay where they were, the error line is written,
    and the very next test ends the loop: the snapshot and the centroids
    are the same. *)
Theorem kmeans_loop_alloc_failure (mallocs : nat -> bool) (fuel it : nat)
    (previous : Centroids) (w : session) (trace : list event) :
  converged previous (centroids w) = false ->
  mallocs (S it) = false ->
  kmeans_loop (S (S fuel)) mallocs it previous w trace
  = Done (mksession (centroids w) (assign_step (centroids w) (samples w))
            (time_between_updates w) (stderr w ++ [update_step_error]),
          trace ++ cycle_events ++ [Test true]).
Proof. apply kmeans_loop_failed_turn. Qed.

Lemma kmeans_loop_alloc_failure_witness :
  kmeans_loop 2 (fun _ => false) 0 (mkda [] 10) due_session []
  = Done (mksession (mkda [vec 1 1] 10)
            (assign_step (mkda [vec 1 1] 10) fresh_samples)
            F32.one [update_step_error],
          [] ++ cycle_events ++ [Test true]).
Proof.
  apply (kmeans_loop_alloc_failure (fun _ => false) 0 0 (mkda [] 10) due_session []);
    reflexivity.
Defined.

(** X12.  A call of [run_kmeans] that returns has kept the number, the order
    and the positions of the samples, the number of centroids and the
    capacities of both arrays, and has written at most one line, the
    allocation error of [update_step], to [stderr]. *)
Theorem run_kmeans_frame (fuel : nat) (mallocs : nat -> bool)
    (previous0 : list Vector2.t) (w w' : session) (trace : list event) :
  run_kmeans fuel mallocs previous0 w = Done (w', trace) ->
  count (samples w') = count (samples w) /\
  capacity (samples w') = capacity (samples w) /\
  map position (items (samples w')) = map position (items (samples w)) /\
  count (centroids w') = count (centroids w) /\
  capacity (centroids w') = capacity (centroids w) /\
  (stderr w' = stderr w \/ stderr w' = stderr w ++ [update_step_error]).
Proof.
  unfold run_kmeans. destruct (time_between_updates w <? F32.one)%f32.
  - intros H. injection H as <- <-. repeat split; try reflexivity. now left.
  - destruct (mallocs O).
    + destruct (kmeans_loop fuel mallocs 0
                  (mkda previous0 (capacity (centroids w))) w [])
        as [[w1 trace1]| | |] eqn:Hloop; try discriminate.
      simpl. intros H. injection H as <- <-. simpl.
      now apply kmeans_loop_frame in Hloop.
    + destruct previous0, (items (centroids w)); try discriminate.
      simpl. intros H. injection H as <- <-. simpl.
      repeat split; try reflexivity. now left.
Qed.

Lemma run_kmeans_frame_witness :
  count (assign_step lonely_centroids fresh_samples) = count fresh_samples /\
  capacity (assign_step lonely_centroids fresh_samples) = capacity fresh_samples /\
  map position (items (assign_step lonely_centroids fresh_samples))
  = map position (items fresh_samples) /\
  count lonely_after = count lonely_centroids /\
  capacity lonely_after = capacity lonely_centroids /\
  (@nil string = [] \/ @nil string = [] ++ [update_step_error]).
Proof.
  apply (run_kmeans_frame 5 (fun _ => true) []
           (mksession lonely_centroids fresh_samples F32.one [])
           (mksession lonely_after (assign_step lonely_centroids fresh_samples)
              F32.zero [])
           (run_events 1)).
  reflexivity.
Defined.

(** X13.  When the count left in the uninitialised [previous] differs from
    the number of centroids, the first test fails and a run that returns has
    gone through one full turn of the loop at least: the session it returns
    is the one reached by a convergence run from the session left by
    [assign_step] and [update_step] on the initial one, the snapshot of that
    run being the initial centroids, with the accumulator at zero. *)
Theorem run_kmeans_first_turn (fuel : nat) (mallocs : nat -> bool)
    (previous0 : list Vector2.t) (w w' : session) (trace : list event) :
  F32.leb F32.one (time_between_updates w) = true ->
  mallocs O = true ->
  length previous0 <> length (items (centroids w)) ->
  run_kmeans fuel mallocs previous0 w = Done (w', trace) ->
  exists n w1 w2,
    turn (mallocs 1%nat) w = Done w1 /\
    loop_run mallocs 1 (mkda (items (centroids w)) (capacity (centroids w)))
      w1 n w2 /\
    w' = reset_time w2 /\
    trace = run_events (S n).
Proof.
  intros Hge Hm Hlen. unfold run_kmeans.
  rewrite (leb_not_ltb _ _ Hge), Hm.
  destruct (kmeans_loop fuel mallocs 0
              (mkda previous0 (capacity (centroids w))) w [])
    as [[w2 trace1]| | |] eqn:Hloop; try discriminate.
  simpl. intros H. injection H as <- <-.
  apply kmeans_loop_sound in Hloop. destruct Hloop as (n & Hrun & ->).
  assert (converged (mkda previous0 (capacity (centroids w))) (centroids w) = false)
    as Hnot.
  { unfold converged, count. simpl.
    destruct (Z.of_nat (length previous0) =? Z.of_nat (length (items (centroids w))))
      eqn:E; [apply Z.eqb_eq in E; lia | reflexivity]. }
  inversion Hrun as [? ? ? Hconv | ? ? ? w1 n' ? _ Hturn Hrest]; subst.
  - rewrite Hnot in Hconv. discriminate.
  - exists n', w1, w2. simpl in Hrest. now repeat split.
Qed.

Lemma run_kmeans_first_turn_witness :
  exists n w1 w2,
    turn true (mksession lonely_centroids fresh_samples F32.one []) = Done w1 /\
    loop_run (fun _ => true) 1
      (mkda (items lonely_centroids) (capacity lonely_centroids)) w1 n w2 /\
    mksession lonely_after (assign_step lonely_centroids fresh_samples) F32.zero []
    = reset_time w2 /\
    run_events 1 = run_events (S n).
Proof.
  apply (run_kmeans_first_turn 5 (fun _ => true) []
           (mksession lonely_centroids fresh_samples F32.one [])
           (mksession lonely_after (assign_step lonely_centroids fresh_samples)
              F32.zero [])
           (run_events 1)).
  - reflexivity.
  - reflexivity.
  - simpl. lia.
  - reflexivity.
Defined.

(** ** A centroid that is not a number *)

Lemma distance_nan (sample : Sample.t) : distance sample nan_position = F32.nan.
Proof.
  unfold distance, nan_position. simpl.
  destruct (Sample.x sample), (Sample.y sample); reflexivity.
Qed.

Lemma assign_sample_not_nan (c : Centroids) (k : nat) (sample : Sample.t) :
  items c !! k = Some nan_position ->
  in_reach c sample ->
  Sample.cluster (assign_sample c sample) <> Z.of_nat k.
Proof.
  intros Hk (j & cj & Hj & Hlt). unfold assign_sample. simpl.
  destruct (assign_scan_spec sample (items c) 0 F32.FLT_MAX (Sample.cluster sample))
    as [[_ Hno]|(i & ci & Hi & Heq & Hbest & _)].
  - rewrite (Hno j cj Hj) in Hlt. discriminate.
  - rewrite Heq. simpl. intros Hik.
    assert (i = k) as -> by lia.
    rewrite Hk in Hi. injection Hi as <-.
    rewrite distance_nan in Hbest. discriminate.
Qed.

(** X14.  A centroid that is not a number wins no sample and stays as it is:
    when every sample has a centroid within reach, [assign_step] gives none
    of them the index of that centroid, and the [update_step] that follows
    leaves the centroid not a number. *)
Theorem nan_centroid_is_permanent (c c' : Centroids) (s : Samples) (k : nat)
    (lines : list string) :
  items c !! k = Some nan_position ->
  Forall (in_reach c) (items s) ->
  update_step true c (assign_step c s) = Done (c', lines) ->
  members (Z.of_nat k) (items (assign_step c s)) = [] /\
  items c' !! k = Some nan_position.
Proof.
  intros Hk Hreach Hup.
  assert (members (Z.of_nat k) (items (assign_step c s)) = []) as Hempty.
  { unfold assign_step. simpl. induction Hreach as [|sample ss Hs _ IH];
      [reflexivity|].
    change (map (assign_sample c) (sample :: ss))
      with (assign_sample c sample :: map (assign_sample c) ss).
    rewrite members_cons.
    destruct (Sample.cluster (assign_sample c sample) =? Z.of_nat k) eqn:E;
      [|exact IH].
    apply Z.eqb_eq in E. now apply assign_sample_not_nan in E. }
  split; [exact Hempty|].
  apply update_step_cells in Hup. destruct Hup as (_ & _ & _ & Hcells).
  rewrite Hcells by (eapply lookup_lt_Some; eauto).
  unfold cluster_mean. rewrite Hempty. reflexivity.
Qed.

Lemma nan_centroid_is_permanent_witness :
  members (Z.of_nat 1) (items (assign_step lonely_after fresh_samples)) = [] /\
  items lonely_after !! 1%nat = Some nan_position.
Proof.
  apply (nan_centroid_is_permanent lonely_after lonely_after fresh_samples 1 []).
  - reflexivity.
  - repeat constructor; exists O, (Vector2.mk half half); split; reflexivity.
  - reflexivity.
Defined.

(** ** Drawing *)

Lemma sample_color_outcome (cl : Z) :
  (if cl =? -1 then Done PINK
   else if cl <? 0 then Undefined
   else match centroids_colors !! Z.to_nat cl with
        | Some color => Done color
        | None => Undefined
        end)
  = match sample_color cl with Some col => Done col | None => Undefined end.
Proof.
  unfold sample_color. destruct (cl =? -1); [reflexivity|].
  destruct (cl <? 0); [reflexivity|].
  destruct (centroids_colors !! Z.to_nat cl); reflexivity.
Qed.

Lemma sample_color_range (cl : Z) :
  is_Some (sample_color cl) <-> -1 <= cl < 3.
Proof.
  unfold sample_color. destruct (cl =? -1) eqn:E1.
  - apply Z.eqb_eq in E1. split; [lia | eauto].
  - apply Z.eqb_neq in E1. destruct (cl <? 0) eqn:E2.
    + apply Z.ltb_lt in E2. split; [intros [col H]; discriminate | lia].
    + apply Z.ltb_ge in E2. rewrite lookup_lt_is_Some. simpl. lia.
Qed.

Lemma draw_circle_done (x y : float) (r : Z) (col : Color) (circ : circle) :
  draw_circle x y r col = Done circ ->
  to_int x = Some (centerX circ) /\ to_int y = Some (centerY circ) /\
  radius circ = F32.of_int r /\ color circ = col.
Proof.
  unfold draw_circle. destruct (to_int x), (to_int y); try discriminate.
  intros H. injection H as <-. now repeat split.
Qed.

Lemma draw_circle_defined (x y : float) (r : Z) (col : Color) :
  is_Some (to_int x) -> is_Some (to_int y) ->
  exists circ, draw_circle x y r col = Done circ.
Proof.
  intros [cx Hx] [cy Hy]. unfold draw_circle. rewrite Hx, Hy. eauto.
Qed.

Lemma draw_circle_undefined (x y : float) (r : Z) (col : Color) :
  ~ (is_Some (to_int x) /\ is_Some (to_int y)) ->
  draw_circle x y r col = Undefined.
Proof.
  unfold draw_circle. destruct (to_int x), (to_int y); try reflexivity.
  intros H. exfalso. apply H. split; eauto.
Qed.

Lemma draw_samples_from_circles (ss : list Sample.t) :
  forall circles,
    draw_samples_from ss = Done circles -> Forall2 sample_circle ss circles.
Proof.
  induction ss as [|sample ss IH]; intros circles H; simpl in H.
  - injection H as <-. constructor.
  - rewrite sample_color_outcome in H.
    destruct (sample_color (Sample.cluster sample)) as [col|] eqn:Hcol;
      [|discriminate].
    simpl in H.
    destruct (draw_circle (Sample.x sample) (Sample.y sample) SAMPLE_RADIUS col)
      as [circ| | |] eqn:Hcirc; try discriminate.
    simpl in H. destruct (draw_samples_from ss) as [cs| | |]; try discriminate.
    simpl in H. injection H as <-.
    apply draw_circle_done in Hcirc. destruct Hcirc as (Hx & Hy & Hr & Hc).
    constructor; [|now apply IH].
    unfold sample_circle. rewrite Hc. now repeat split.
Qed.

Lemma draw_samples_from_done (ss : list Sample.t) :
  Forall drawable ss -> exists circles, draw_samples_from ss = Done circles.
Proof.
  induction 1 as [|sample ss (Hcl & Hx & Hy) _ [circles IH]]; simpl.
  - eauto.
  - rewrite sample_color_outcome.
    apply sample_color_range in Hcl. destruct Hcl as [col ->]. simpl.
    destruct (draw_circle_defined _ _ SAMPLE_RADIUS col Hx Hy) as [circ ->].
    simpl. rewrite IH. simpl. eauto.
Qed.

Lemma draw_samples_from_undefined (ss : list Sample.t) :
  Exists (fun sample => ~ drawable sample) ss ->
  draw_samples_from ss = Undefined.
Proof.
  induction ss as [|sample ss IH]; intros Hex; [inversion Hex|].
  simpl. rewrite sample_color_outcome.
  destruct (sample_color (Sample.cluster sample)) as [col|] eqn:Hcol;
    [|reflexivity].
  simpl.
  destruct (draw_circle (Sample.x sample) (Sample.y sample) SAMPLE_RADIUS col)
    as [circ| | |] eqn:Hcirc; try reflexivity.
  - simpl. apply Exists_cons in Hex. destruct Hex as [Hbad|Hex].
    + exfalso. apply Hbad. apply draw_circle_done in Hcirc.
      destruct Hcirc as (Hx & Hy & _). split; [|split; eauto].
      apply sample_color_range. eauto.
    + now rewrite IH.
  - unfold draw_circle in Hcirc.
    destruct (to_int (Sample.x sample)), (to_int (Sample.y sample)); discriminate.
  - unfold draw_circle in Hcirc.
    destruct (to_int (Sample.x sample)), (to_int (Sample.y sample)); discriminate.
Qed.

(** X15.  [draw_samples] makes one call of [DrawCircle] per sample, in
    order: the centre is the position of the sample converted to [int], the
    fraction dropped, the radius is 5, and the colour is pink for an
    unassigned sample and the palette colour of its cluster otherwise.  It
    does so when every cluster field is -1, 0, 1 or 2 and every coordinate
    converts to [int]; a cluster field outside the palette of three colours
    or a coordinate that is not a number or does not fit an [int] makes the
    call undefined. *)
Theorem draw_samples_spec (s : Samples) :
  (Forall drawable (items s) ->
   exists circles,
     draw_samples s = Done circles /\
     Forall2 sample_circle (items s) circles) /\
  (Exists (fun sample => ~ drawable sample) (items s) ->
   draw_samples s = Undefined) /\
  (forall circles,
     draw_samples s = Done circles -> Forall2 sample_circle (items s) circles).
Proof.
  unfold draw_samples. split; [|split].
  - intros Hall. destruct (draw_samples_from_done _ Hall) as [circles H].
    exists circles. split; [exact H|]. now apply draw_samples_from_circles.
  - apply draw_samples_from_undefined.
  - apply draw_samples_from_circles.
Qed.

Lemma draw_samples_spec_witness :
  (exists circles,
     draw_samples (mkda [Sample.mk half (F32.of_int 2) UNASSIGNED;
                         smp 7 9 2] 10) = Done circles /\
     Forall2 sample_circle
       (items (mkda [Sample.mk half (F32.of_int 2) UNASSIGNED; smp 7 9 2] 10))
       circles) /\
  draw_samples (mkda [smp 0 0 3] 10) = Undefined /\
  draw_samples (mkda [Sample.mk F32.nan F32.zero 0] 10) = Undefined.
Proof.
  split; [|split].
  - apply (proj1 (draw_samples_spec
                    (mkda [Sample.mk half (F32.of_int 2) UNASSIGNED; smp 7 9 2] 10))).
    simpl. repeat (constructor;
      [unfold drawable, UNASSIGNED; simpl; split; [lia | split; eauto]|]).
    constructor.
  - apply (proj1 (proj2 (draw_samples_spec (mkda [smp 0 0 3] 10)))).
    apply Exists_cons_hd. unfold drawable. simpl. lia.
  - apply (proj1 (proj2 (draw_samples_spec
                           (mkda [Sample.mk F32.nan F32.zero 0] 10)))).
    apply Exists_cons_hd. unfold drawable. simpl.
    intros (_ & [n Hn] & _). discriminate.
Defined.

(** The conversion drops the fraction, towards zero, and refuses what is
    not a number or does not fit. *)
Example to_int_examples :
  to_int half = Some 0 /\
  to_int (F32.of_int 11 / F32.of_int 4)%f32 = Some 2 /\
  to_int (F32.opp (F32.of_int 11 / F32.of_int 4)%f32) = Some (-2) /\
  to_int (F32.of_int 799) = Some 799 /\
  to_int F32.nan = None /\
  to_int two_100 = None.
Proof. repeat split. Qed.

Lemma draw_centroids_from_circles (cs : list Vector2.t) :
  forall k circles,
    draw_centroids_from cs k = Done circles ->
    length circles = length cs /\
    forall i centroid,
      cs !! i = Some centroid ->
      exists circ, circles !! i = Some circ /\ centroid_circle (k + i) centroid circ.
Proof.
  induction cs as [|c cs IH]; intros k circles H; simpl in H.
  - injection H as <-. split; [reflexivity|]. intros i centroid Hi. discriminate.
  - destruct (centroids_colors !! k) as [col|] eqn:Hcol; [|discriminate].
    destruct (draw_circle (Vector2.x c) (Vector2.y c) CENTROID_RADIUS col)
      as [circ| | |] eqn:Hcirc; try discriminate.
    simpl in H.
    destruct (draw_centroids_from cs (S k)) as [rest| | |] eqn:Hrest;
      try discriminate.
    simpl in H. injection H as <-.
    destruct (IH _ _ Hrest) as [Hlen Hall].
    apply draw_circle_done in Hcirc. destruct Hcirc as (Hx & Hy & Hr & Hc).
    split; [simpl; now rewrite Hlen|].
    intros [|i] centroid Hi; simpl in Hi.
    + injection Hi as <-. exists circ. split; [reflexivity|].
      unfold centroid_circle. rewrite Hc, Nat.add_0_r. now repeat split.
    + destruct (Hall i centroid Hi) as (ci & Hci & Hcc).
      exists ci. split; [exact Hci|].
      now replace (k + S i)%nat with (S k + i)%nat by lia.
Qed.

Lemma draw_centroids_from_done (cs : list Vector2.t) :
  forall k : nat,
    (k + length cs <= 3)%nat ->
    Forall on_grid cs ->
    exists circles, draw_centroids_from cs k = Done circles.
Proof.
  induction cs as [|c cs IH]; intros k Hk Hall; simpl.
  - eauto.
  - simpl in Hk. apply Forall_cons in Hall. destruct Hall as [[Hx Hy] Hall].
    destruct (lookup_lt_is_Some_2 centroids_colors k) as [col ->]; [simpl; lia|].
    destruct (draw_circle_defined _ _ CENTROID_RADIUS col Hx Hy) as [circ ->].
    simpl. destruct (IH (S k)) as [circles ->]; [lia | exact Hall|].
    simpl. eauto.
Qed.

Lemma draw_centroids_from_too_many (cs : list Vector2.t) :
  forall k : nat,
    (k <= 3)%nat ->
    (3 < k + length cs)%nat ->
    draw_centroids_from cs k = Undefined.
Proof.
  induction cs as [|c cs IH]; intros k Hle Hk; simpl in *.
  - lia.
  - destruct (centroids_colors !! k) as [col|] eqn:E; [|reflexivity].
    apply lookup_lt_Some in E. simpl in E.
    rewrite IH by lia.
    destruct (draw_circle (Vector2.x c) (Vector2.y c) CENTROID_RADIUS col)
      as [circ| | |] eqn:Hcirc; try reflexivity.
    + unfold draw_circle in Hcirc.
      destruct (to_int (Vector2.x c)), (to_int (Vector2.y c)); discriminate.
    + unfold draw_circle in Hcirc.
      destruct (to_int (Vector2.x c)), (to_int (Vector2.y c)); discriminate.
Qed.

Lemma draw_centroids_from_off_grid (cs : list Vector2.t) :
  forall k : nat,
    Exists (fun centroid => ~ on_grid centroid) cs ->
    draw_centroids_from cs k = Undefined.
Proof.
  induction cs as [|c cs IH]; intros k Hex; [inversion Hex|].
  simpl. destruct (centroids_colors !! k) as [col|]; [|reflexivity].
  destruct (draw_circle (Vector2.x c) (Vector2.y c) CENTROID_RADIUS col)
    as [circ| | |] eqn:Hcirc; try reflexivity.
  - simpl. apply Exists_cons in Hex. destruct Hex as [Hbad|Hex].
    + exfalso. apply Hbad. apply draw_circle_done in Hcirc.
      destruct Hcirc as (Hx & Hy & _). split; eauto.
    + now rewrite IH.
  - unfold draw_circle in Hcirc.
    destruct (to_int (Vector2.x c)), (to_int (Vector2.y c)); discriminate.
  - unfold draw_circle in Hcirc.
    destruct (to_int (Vector2.x c)), (to_int (Vector2.y c)); discriminate.
Qed.

(** X16.  [draw_centroids] makes one call of [DrawCircle] per centroid, in
    order: the centre is the position of the centroid converted to [int],
    the radius is 10 and the colour is the palette colour of its index.  It
    does so when there are at most three centroids and every coordinate
    converts to [int]; a fourth centroid makes it read outside the palette,
    and a centroid that is not a number, as an empty cluster leaves it, has
    no conversion: both are undefined. *)
Theorem draw_centroids_spec (c : Centroids) :
  (count c <= 3 -> Forall on_grid (items c) ->
   exists circles, draw_centroids c = Done circles) /\
  (forall circles,
     draw_centroids c = Done circles ->
     length circles = length (items c) /\
     forall k centroid,
       items c !! k = Some centroid ->
       exists circ, circles !! k = Some circ /\ centroid_circle k centroid circ) /\
  (3 < count c -> draw_centroids c = Undefined) /\
  (Exists (fun centroid => ~ on_grid centroid) (items c) ->
   draw_centroids c = Undefined) /\
  (In nan_position (items c) -> draw_centroids c = Undefined).
Proof.
  unfold draw_centroids, count. split; [|split; [|split; [|split]]].
  - intros Hk Hall. apply draw_centroids_from_done; [lia | exact Hall].
  - intros circles H. apply (draw_centroids_from_circles _ _ _ H).
  - intros Hk. apply draw_centroids_from_too_many; lia.
  - apply draw_centroids_from_off_grid.
  - intros Hin. apply draw_centroids_from_off_grid.
    apply Exists_exists. exists nan_position. split; [now apply list_elem_of_In|].
    intros [[n Hn] _]. discriminate.
Qed.

Lemma draw_centroids_spec_witness :
  (exists circles, draw_centroids lonely_centroids = Done circles) /\
  (length [DrawCircle 0 0 (F32.of_int 10) RED;
           DrawCircle 100 100 (F32.of_int 10) GREEN]
   = length (items lonely_centroids) /\
   forall k centroid,
     items lonely_centroids !! k = Some centroid ->
     exists circ,
       [DrawCircle 0 0 (F32.of_int 10) RED;
        DrawCircle 100 100 (F32.of_int 10) GREEN] !! k = Some circ /\
       centroid_circle k centroid circ) /\
  draw_centroids (mkda [vec 1 1; vec 2 2; vec 3 3; vec 4 4] 10) = Undefined /\
  draw_centroids lonely_after = Undefined.
Proof.
  split; [|split; [|split]].
  - apply (proj1 (draw_centroids_spec lonely_centroids)).
    + unfold count. simpl. lia.
    + simpl. repeat (constructor; [split; eauto|]). constructor.
  - apply (proj1 (proj2 (draw_centroids_spec lonely_centroids))).
    reflexivity.
  - apply (proj1 (proj2 (proj2 (draw_centroids_spec
                                  (mkda [vec 1 1; vec 2 2; vec 3 3; vec 4 4] 10))))).
    unfold count. simpl. lia.
  - apply (proj2 (proj2 (proj2 (proj2 (draw_centroids_spec lonely_after))))).
    simpl. right. left. reflexivity.
Defined.

Lemma drawable_after_assign (c : Centroids) (ss : list Sample.t) :
  count c <= 3 ->
  Forall (fun sample =>
            cluster_ok (count c) sample /\
            is_Some (to_int (Sample.x sample)) /\
            is_Some (to_int (Sample.y sample))) ss ->
  Forall drawable (map (assign_sample c) ss).
Proof.
  intros Hk Hok. apply Forall_fmap. eapply Forall_impl; [exact Hok|].
  intros sample (Hs & Hx & Hy). simpl.
  split; [|split; [exact Hx | exact Hy]].
  destruct (assign_sample_cases c sample) as [-> | [Hlo Hhi]].
  - destruct Hs as [Hs | [Hlo Hhi]]; [rewrite Hs; unfold UNASSIGNED|]; lia.
  - lia.
Qed.

(** X17.  With at most three centroids, samples whose cluster fields are the
    sentinel or an index into the centroids and whose coordinates convert to
    [int] can still all be drawn after [assign_step]: [draw_samples] returns
    one circle per sample, at its converted position and in the colour of
    the cluster [assign_step] has left it. *)
Theorem draw_samples_after_assign (c : Centroids) (s : Samples) :
  count c <= 3 ->
  Forall (fun sample =>
            cluster_ok (count c) sample /\
            is_Some (to_int (Sample.x sample)) /\
            is_Some (to_int (Sample.y sample))) (items s) ->
  exists circles,
    draw_samples (assign_step c s) = Done circles /\
    Forall2 sample_circle (items (assign_step c s)) circles.
Proof.
  intros Hk Hok. unfold draw_samples, assign_step. simpl.
  destruct (draw_samples_from_done (map (assign_sample c) (items s)))
    as [circles Hdraw]; [now apply drawable_after_assign|].
  exists circles. split; [exact Hdraw|]. now apply draw_samples_from_circles.
Qed.

Lemma draw_samples_after_assign_witness :
  exists circles,
    draw_samples (assign_step lonely_centroids fresh_samples) = Done circles /\
    Forall2 sample_circle (items (assign_step lonely_centroids fresh_samples))
      circles.
Proof.
  apply (draw_samples_after_assign lonely_centroids fresh_samples).
  - unfold count. simpl. lia.
  - simpl. repeat (constructor; [split; [left; reflexivity | split; eauto]|]).
    constructor.
Defined.

(** X18.  A frame whose frame time leaves the accumulator below 1.0, with
    at most three centroids and everything drawable, draws the centroids,
    one circle each, then the samples, one circle each, adds the frame time
    to the accumulator and does nothing else: centroids and samples are as
    they were and the loop of [run_kmeans] is not entered. *)
Theorem frame_idle (fuel : nat) (mallocs : nat -> bool)
    (previous0 : list Vector2.t) (dt : float) (w : session) :
  (time_between_updates w + dt <? F32.one)%f32 = true ->
  count (centroids w) <= 3 ->
  Forall on_grid (items (centroids w)) ->
  Forall drawable (items (samples w)) ->
  exists circles_c circles_s,
    frame fuel mallocs previous0 dt w
    = Done (mksession (centroids w) (samples w)
              (time_between_updates w + dt)%f32 (stderr w),
            circles_c ++ circles_s, []) /\
    draw_centroids (centroids w) = Done circles_c /\
    draw_samples (samples w) = Done circles_s /\
    length circles_c = length (items (centroids w)) /\
    (forall k centroid,
       items (centroids w) !! k = Some centroid ->
       exists circ,
         circles_c !! k = Some circ /\ centroid_circle k centroid circ) /\
    Forall2 sample_circle (items (samples w)) circles_s.
Proof.
  intros Hlt Hk Hgrid Hdraw. unfold frame, draw_centroids, draw_samples.
  cbn [centroids samples].
  destruct (draw_centroids_from_done (items (centroids w)) O)
    as [cc Hcc]; [unfold count in Hk; lia | exact Hgrid|].
  destruct (draw_samples_from_done (items (samples w)) Hdraw) as [cs Hcs].
  rewrite Hcc, Hcs.
  cbn [mbind outcome_bind]. unfold run_kmeans.
  cbn [time_between_updates]. rewrite Hlt. cbn [mbind outcome_bind].
  exists cc, cs. split; [reflexivity|]. split; [reflexivity|].
  split; [reflexivity|].
  destruct (draw_centroids_from_circles _ _ _ Hcc) as [Hlen Hall].
  split; [exact Hlen|]. split; [exact Hall|].
  now apply draw_samples_from_circles.
Qed.

Lemma frame_idle_witness :
  exists circles_c circles_s,
    frame 5 (fun _ => true) [] half
      (mksession lonely_centroids fresh_samples F32.zero [])
    = Done (mksession lonely_centroids fresh_samples (F32.zero + half)%f32 [],
            circles_c ++ circles_s, []) /\
    draw_centroids lonely_centroids = Done circles_c /\
    draw_samples fresh_samples = Done circles_s /\
    length circles_c = length (items lonely_centroids) /\
    (forall k centroid,
       items lonely_centroids !! k = Some centroid ->
       exists circ,
         circles_c !! k = Some circ /\ centroid_circle k centroid circ) /\
    Forall2 sample_circle (items fresh_samples) circles_s.
Proof.
  apply (frame_idle 5 (fun _ => true) [] half
           (mksession lonely_centroids fresh_samples F32.zero [])).
  - reflexivity.
  - unfold count. simpl. lia.
  - simpl. repeat (constructor; [split; eauto|]). constructor.
  - simpl. repeat (constructor;
      [unfold drawable, UNASSIGNED; simpl; split; [lia | split; eauto]|]).
    constructor.
Defined.

(** ** Random positions *)

(** X19.  A call of [generate_samples] that returns has drawn two random
    numbers per sample, in order: the [i]-th appended sample lies at the
    centre moved by the random offsets number [2 i] and [2 i + 1] after the
    starting point of the sequence, both taken between [-radius] and
    [radius] converted to [float]. *)
Theorem generate_samples_positions (RAND_MAX : Z) (rand : nat -> Z)
    (realloc_ok : Z -> bool) (center : Vector2.t) (radius : spec_float)
    (num_samples : nat) :
  forall (s s' : Samples) (seed seed' : nat),
    generate_samples RAND_MAX rand realloc_ok s center num_samples radius seed
      = Done (s', seed') ->
    seed' = (seed + 2 * num_samples)%nat /\
    forall i : nat, (i < num_samples)%nat ->
      items s' !! (length (items s) + i)%nat =
        Some (Sample.mk
                (Vector2.x center +
                 get_random_float RAND_MAX rand (seed + 2 * i)
                   (F32.of_double (SFopp radius)) (F32.of_double radius))%f32
                (Vector2.y center +
                 get_random_float RAND_MAX rand (seed + 2 * i + 1)
                   (F32.of_double (SFopp radius)) (F32.of_double radius))%f32
                UNASSIGNED).
Proof.
  induction num_samples as [|n IH]; intros s s' seed seed' H; simpl in H.
  - injection H as <- <-. split; [lia|]. intros i Hi. lia.
  - match type of H with
    | context [da_append _ _ ?it] =>
        destruct (da_append realloc_ok s it) as [s1| | |] eqn:Happ; try discriminate
    end.
    apply da_append_items in Happ. simpl in H.
    destruct (generate_samples_appends _ _ _ _ _ _ _ _ _ _ H) as (new & Hitems & _).
    destruct (IH _ _ _ _ H) as [Hseed Hpos].
    split; [lia|]. intros [|i] Hi.
    + rewrite Hitems, Happ, <- app_assoc.
      rewrite lookup_app_r by lia.
      replace (length (items s) + 0 - length (items s))%nat with O by lia.
      simpl. do 3 f_equal; f_equal; f_equal; lia.
    + specialize (Hpos i ltac:(lia)).
      rewrite Happ, length_app in Hpos. simpl in Hpos.
      replace (length (items s) + S i)%nat with (length (items s) + 1 + i)%nat by lia.
      rewrite Hpos. do 3 f_equal; f_equal; f_equal; lia.
Qed.

Lemma generate_samples_positions_witness :
  4%nat = (0 + 2 * 2)%nat /\
  forall i : nat, (i < 2)%nat ->
    items (mkda [smp 400 300 UNASSIGNED; smp 400 300 UNASSIGNED] 10)
      !! (length (items (mkda (@nil Sample.t) 0)) + i)%nat =
      Some (Sample.mk
              (Vector2.x (vec 400 300) +
               get_random_float 4 (fun _ => 2) (0 + 2 * i)
                 (F32.of_double (SFopp F64.fifty)) (F32.of_double F64.fifty))%f32
              (Vector2.y (vec 400 300) +
               get_random_float 4 (fun _ => 2) (0 + 2 * i + 1)
                 (F32.of_double (SFopp F64.fifty)) (F32.of_double F64.fifty))%f32
              UNASSIGNED).
Proof.
  apply (generate_samples_positions 4 (fun _ => 2) (fun _ => true) (vec 400 300)
           F64.fifty 2 (mkda [] 0)
           (mkda [smp 400 300 UNASSIGNED; smp 400 300 UNASSIGNED] 10) 0 4).
  reflexivity.
Defined.

(** ** Edge cases of [run_kmeans] and the frame that runs it *)

Lemma accumulate_empty_array (ss : list Sample.t) :
  ss <> [] -> accumulate ss [] = Undefined.
Proof.
  destruct ss as [|sample ss]; [congruence|]. intros _. simpl.
  destruct (Sample.cluster sample <? 0); reflexivity.
Qed.

(** X20.  Without any centroid but with a sample, a run whose first test
    fails is undefined: [assign_step] assigns nothing and [update_step]
    indexes an array of zero cells. *)
Theorem run_kmeans_no_centroid (fuel : nat) (mallocs : nat -> bool)
    (previous0 : list Vector2.t) (w : session) :
  F32.leb F32.one (time_between_updates w) = true ->
  mallocs O = true -> mallocs 1%nat = true ->
  items (centroids w) = [] ->
  previous0 <> [] ->
  items (samples w) <> [] ->
  run_kmeans (S fuel) mallocs previous0 w = Undefined.
Proof.
  intros Hge H0 H1 Hc Hp Hs. unfold run_kmeans.
  rewrite (leb_not_ltb _ _ Hge), H0. simpl.
  unfold converged, count. simpl. rewrite Hc.
  destruct previous0 as [|p ps]; [congruence|]. simpl.
  rewrite H1. unfold update_step. simpl. rewrite Hc. simpl.
  rewrite accumulate_empty_array; [reflexivity|].
  destruct (items (samples w)); [congruence | discriminate].
Qed.

Lemma run_kmeans_no_centroid_witness :
  run_kmeans 1 (fun _ => true) [vec 1 1]
    (mksession (mkda [] 0) fresh_samples F32.one []) = Undefined.
Proof.
  apply (run_kmeans_no_centroid 0 (fun _ => true) [vec 1 1]
           (mksession (mkda [] 0) fresh_samples F32.one []));
    (reflexivity || discriminate).
Defined.

(** X21.  An accumulator that is not a number is not below 1.0: the run is
    made, and a call that returns has gone through the turns of a
    convergence run on the session, [assign_step] and [update_step] in each,
    up to the first test that succeeds, and has put the accumulator to
    zero. *)
Theorem run_kmeans_nan_time (fuel : nat) (mallocs : nat -> bool)
    (previous0 : list Vector2.t) (w w' : session) (trace : list event) :
  time_between_updates w = F32.nan ->
  run_kmeans fuel mallocs previous0 w = Done (w', trace) ->
  time_between_updates w' = F32.zero /\
  exists n w1,
    loop_run mallocs O (mkda previous0 (capacity (centroids w))) w n w1 /\
    w' = reset_time w1 /\
    trace = run_events n.
Proof.
  intros Hnan. unfold run_kmeans. rewrite Hnan. simpl.
  destruct (mallocs O).
  - destruct (kmeans_loop fuel mallocs 0
                (mkda previous0 (capacity (centroids w))) w [])
      as [[w1 trace1]| | |] eqn:Hloop; try discriminate.
    simpl. intros H. injection H as <- <-. split; [reflexivity|].
    apply kmeans_loop_sound in Hloop. destruct Hloop as (n & Hrun & ->).
    now exists n, w1.
  - destruct previous0 as [|p ps]; [|discriminate].
    destruct (items (centroids w)) eqn:Hc; [|discriminate].
    simpl. intros H. injection H as <- <-. split; [reflexivity|].
    exists O, w. split; [|split; reflexivity].
    constructor. unfold converged, count. simpl. now rewrite Hc.
Qed.

Lemma run_kmeans_nan_time_witness :
  time_between_updates
    (mksession lonely_after (assign_step lonely_centroids fresh_samples)
       F32.zero [])
  = F32.zero /\
  exists n w1,
    loop_run (fun _ => true) O (mkda [] (capacity lonely_centroids))
      (mksession lonely_centroids fresh_samples F32.nan []) n w1 /\
    mksession lonely_after (assign_step lonely_centroids fresh_samples)
      F32.zero [] = reset_time w1 /\
    run_events 1 = run_events n.
Proof.
  apply (run_kmeans_nan_time 5 (fun _ => true) []
           (mksession lonely_centroids fresh_samples F32.nan [])).
  - reflexivity.
  - reflexivity.
Defined.

(** X22.  A frame that returns with its accumulator at or above 1.0 has
    drawn the centroids and then the samples as they were before the run,
    every circle at the converted position of what it shows, has then made
    a convergence run on the session, and has put the accumulator to
    zero. *)
Theorem frame_due (fuel : nat) (mallocs : nat -> bool)
    (previous0 : list Vector2.t) (dt : float) (w w' : session)
    (circles : list circle) (trace : list event) :
  F32.leb F32.one (time_between_updates w + dt)%f32 = true ->
  frame fuel mallocs previous0 dt w = Done (w', circles, trace) ->
  time_between_updates w' = F32.zero /\
  (exists circles_c circles_s,
     circles = circles_c ++ circles_s /\
     draw_centroids (centroids w) = Done circles_c /\
     draw_samples (samples w) = Done circles_s /\
     length circles_c = length (items (centroids w)) /\
     (forall k centroid,
        items (centroids w) !! k = Some centroid ->
        exists circ,
          circles_c !! k = Some circ /\ centroid_circle k centroid circ) /\
     Forall2 sample_circle (items (samples w)) circles_s) /\
  (exists n w1,
     loop_run mallocs O (mkda previous0 (capacity (centroids w)))
       (mksession (centroids w) (samples w)
          (time_between_updates w + dt)%f32 (stderr w)) n w1 /\
     w' = reset_time w1 /\
     trace = run_events n).
Proof.
  intros Hge. unfold frame, draw_centroids, draw_samples. cbn [centroids samples].
  destruct (draw_centroids_from (items (centroids w)) 0)
    as [cc| | |] eqn:Hcc; try discriminate.
  destruct (draw_samples_from (items (samples w)))
    as [cs| | |] eqn:Hcs; try discriminate.
  cbn [mbind outcome_bind]. unfold run_kmeans.
  cbn [time_between_updates centroids]. rewrite (leb_not_ltb _ _ Hge).
  assert (length cc = length (items (centroids w)) /\
          (forall k centroid,
             items (centroids w) !! k = Some centroid ->
             exists circ, cc !! k = Some circ /\ centroid_circle k centroid circ) /\
          Forall2 sample_circle (items (samples w)) cs) as (Hlen & Hall & Hss).
  { destruct (draw_centroids_from_circles _ _ _ Hcc) as [Hlen Hall].
    split; [exact Hlen|]. split; [exact Hall|].
    now apply draw_samples_from_circles. }
  destruct (mallocs O).
  - match goal with
    | |- context [kmeans_loop ?f ?m ?i ?p ?w0 ?t] =>
        destruct (kmeans_loop f m i p w0 t) as [[w1 trace1]| | |] eqn:Hloop;
          try discriminate
    end.
    simpl. intros H. injection H as <- <- <-. split; [reflexivity|].
    apply kmeans_loop_sound in Hloop. destruct Hloop as (n & Hrun & ->).
    split; [now exists cc, cs|]. now exists n, w1.
  - destruct previous0 as [|p ps]; [|discriminate].
    destruct (items (centroids w)) eqn:Hc; [|discriminate].
    simpl. intros H. injection H as <- <- <-. split; [reflexivity|].
    split; [now exists cc, cs|].
    exists O, (mksession (centroids w) (samples w)
                 (time_between_updates w + dt)%f32 (stderr w)).
    split; [|split; reflexivity].
    constructor. unfold converged, count. simpl. now rewrite Hc.
Qed.

Lemma frame_due_witness :
  time_between_updates
    (mksession lonely_after (assign_step lonely_centroids fresh_samples)
       F32.zero [])
  = F32.zero /\
  (exists circles_c circles_s,
     [DrawCircle 0 0 (F32.of_int 10) RED;
      DrawCircle 100 100 (F32.of_int 10) GREEN;
      DrawCircle 0 0 (F32.of_int 5) PINK;
      DrawCircle 1 1 (F32.of_int 5) PINK] = circles_c ++ circles_s /\
     draw_centroids lonely_centroids = Done circles_c /\
     draw_samples fresh_samples = Done circles_s /\
     length circles_c = length (items lonely_centroids) /\
     (forall k centroid,
        items lonely_centroids !! k = Some centroid ->
        exists circ,
          circles_c !! k = Some circ /\ centroid_circle k centroid circ) /\
     Forall2 sample_circle (items fresh_samples) circles_s) /\
  (exists n w1,
     loop_run (fun _ => true) O (mkda [] (capacity lonely_centroids))
       (mksession lonely_centroids fresh_samples (half + half)%f32 []) n w1 /\
     mksession lonely_after (assign_step lonely_centroids fresh_samples)
       F32.zero [] = reset_time w1 /\
     run_events 1 = run_events n).
Proof.
  apply (frame_due 5 (fun _ => true) [] half
           (mksession lonely_centroids fresh_samples half [])).
  - reflexivity.
  - reflexivity.
Defined.
